(** * Image captioning backend: shallow embedding of [app.py] and
      [model_loader.py]

    The two Python modules are embedded as Rocq functions.  Python strings are
    modelled on the code points below 256 (one [ascii] per code point), where
    [str.lower] and [str.isspace] are given by small tables.  The third-party
    libraries (torch, transformers, PIL) are an interface of oracles over an
    abstract outside world; module-level names that a function rebinds through
    a [global] declaration form the store that is threaded through every
    call. *)

From Stdlib Require Import String Ascii List ZArith NArith Bool Lia QArith.
Import ListNotations.

#[local] Open Scope string_scope.
#[local] Open Scope Z_scope.

(** ** Python [str] operations used by the source *)

Module PyStr.

(** [c.lower()] on one code point below 256: the upper-case letters there
    are U+0041..U+005A, U+00C0..U+00D6 and U+00D8..U+00DE, each mapped 32
    code points up. *)
Definition lower_char (c : ascii) : ascii :=
  let n := N_of_ascii c in
  if ((65 <=? n) && (n <=? 90))%N
     || ((192 <=? n) && (n <=? 222) && negb (n =? 215))%N
  then ascii_of_N (n + 32) else c.

(** [s.lower()] *)
Fixpoint lower (s : string) : string :=
  match s with
  | EmptyString => EmptyString
  | String c s' => String (lower_char c) (lower s')
  end.

(** [c.isspace()] on one code point below 256. *)
Definition isspace (c : ascii) : bool :=
  let n := N_of_ascii c in
  (((9 <=? n) && (n <=? 13)) || ((28 <=? n) && (n <=? 32))
   || (n =? 133) || (n =? 160))%N.

(** [s.lstrip()] *)
Fixpoint lstrip (s : string) : string :=
  match s with
  | EmptyString => EmptyString
  | String c s' => if isspace c then lstrip s' else s
  end.

(** [s.rstrip()] *)
Fixpoint rstrip (s : string) : string :=
  match s with
  | EmptyString => EmptyString
  | String c s' =>
      match rstrip s' with
      | EmptyString => if isspace c then EmptyString else String c EmptyString
      | r => String c r
      end
  end.

(** [s.strip()] *)
Definition strip (s : string) : string := rstrip (lstrip s).

(** [s.startswith(p)] *)
Fixpoint startswith (s p : string) : bool :=
  match p, s with
  | EmptyString, _ => true
  | String _ _, EmptyString => false
  | String a p', String b s' => if Ascii.eqb a b then startswith s' p' else false
  end.

(** [s[n:]] for a natural [n] *)
Fixpoint slice_from (n : nat) (s : string) : string :=
  match n, s with
  | O, _ => s
  | S _, EmptyString => EmptyString
  | S n', String _ s' => slice_from n' s'
  end.

(** [c in s] for a one-character [c] *)
Fixpoint contains (c : ascii) (s : string) : bool :=
  match s with
  | EmptyString => false
  | String a s' => if Ascii.eqb a c then true else contains c s'
  end.

(** The split point of [s.rsplit(sep, 1)] for a one-character [sep]: the
    text before and after the right-most [sep], when there is one. *)
Fixpoint rpartition (sep : ascii) (s : string) : option (string * string) :=
  match s with
  | EmptyString => None
  | String a s' =>
      match rpartition sep s' with
      | Some (pre, post) => Some (String a pre, post)
      | None => if Ascii.eqb a sep then Some (EmptyString, s') else None
      end
  end.

(** [s.rsplit(sep, 1)] *)
Definition rsplit1 (sep : ascii) (s : string) : list string :=
  match rpartition sep s with
  | Some (pre, post) => [pre; post]
  | None => [s]
  end.

(** [sep.join(l)] *)
Fixpoint join (sep : string) (l : list string) : string :=
  match l with
  | [] => EmptyString
  | [x] => x
  | x :: rest => x ++ sep ++ join sep rest
  end.

(** [x in l] for a collection of strings *)
Definition mem (x : string) (l : list string) : bool :=
  existsb (String.eqb x) l.

End PyStr.

(** ** Exceptions, results and HTTP responses *)

(** The exceptions the embedding distinguishes.  Every one of them is a
    subclass of Python's [Exception], so [except Exception] catches each. *)
Inductive exn : Type :=
| PyException (cls msg : string)
    (** an exception raised inside a library call *)
| IndexError
    (** [list index out of range] *)
| RequestEntityTooLarge.
    (** werkzeug's HTTP 413 exception, a subclass of [HTTPException] *)

(** [str(e)] *)
Definition exn_str (e : exn) : string :=
  match e with
  | PyException _ msg => msg
  | IndexError => "list index out of range"
  | RequestEntityTooLarge =>
      "413 Request Entity Too Large: The data value transmitted exceeds the capacity limit."
  end.

Inductive Res (A : Type) : Type :=
| Ok (a : A)
| Raise (e : exn).
Arguments Ok {A} a.
Arguments Raise {A} e.

Inductive json : Type :=
| JStr (s : string)
| JBool (b : bool).

Inductive Body : Type :=
| Json (fields : list (string * json))
    (** [jsonify({...})] *)
| Html (text : string).
    (** a rendered template *)

(** A view's return value [(body, status)]. *)
Record Response : Type := mkResponse {
  body : Body;
  status : Z
}.

Definition jsonify (fields : list (string * json)) (code : Z) : Response :=
  {| body := Json fields; status := code |}.

(** [jsonify({'error': msg}), code] *)
Definition error_response (msg : string) (code : Z) : Response :=
  jsonify [("error", JStr msg)] code.

(** ** Requests *)

(** werkzeug's [FileStorage]: the part's file name and what [file.read()]
    gives. *)
Record FileStorage : Type := mkFile {
  filename : string;
  read : Res (list Byte.byte)
}.

(** An incoming request: the size of its body and its multipart content.
    [files] and [form] are multi-dicts: lookup takes the first entry of a
    key. *)
Record Request : Type := mkRequest {
  content_length : Z;
  files : list (string * FileStorage);
  form : list (string * string)
}.

Fixpoint multidict_get {V : Type} (key : string) (d : list (string * V)) : option V :=
  match d with
  | [] => None
  | (k, v) :: rest => if String.eqb k key then Some v else multidict_get key rest
  end.

(** The keyword arguments of [model.generate]; [None] stands for a keyword
    that the call does not pass. *)
Record GenerateKwargs : Type := mkKwargs {
  max_length : Z;
  num_beams : Z;
  early_stopping : bool;
  do_sample : option bool;
  repetition_penalty : option Q
}.

Inductive LogLevel : Type := INFO | ERROR.

(** ** The interface to torch, transformers, PIL and the template engine *)

(** Library objects are opaque handles; what a call returns, and how it
    changes the outside world (GPU, network, object contents), is left to the
    oracle.  A call may raise. *)
Record Env : Type := mkEnv {
  Model : Type;
  Processor : Type;
  Image : Type;
  Inputs : Type;
  Output : Type;
  World : Type;
  torch_cuda_is_available : World -> bool;
  BlipProcessor_from_pretrained : string -> World -> Res Processor * World;
  BlipForConditionalGeneration_from_pretrained : string -> World -> Res Model * World;
  model_to : Model -> string -> World -> Res Model * World;
  model_half : Model -> World -> Res Model * World;
  model_eval : Model -> World -> Res unit * World;
  processor_call : Processor -> Image -> option string -> World -> Res Inputs * World;
  inputs_to : Inputs -> string -> World -> Res Inputs * World;
  inputs_half : Inputs -> World -> Res Inputs * World;
  model_generate : Model -> Inputs -> GenerateKwargs -> World -> Res Output * World;
  processor_decode : Processor -> Output -> World -> Res string * World;
  Image_open : list Byte.byte -> Res Image;
  image_mode : Image -> string;
  image_convert : Image -> string -> Res Image;
  render_template : string -> World -> Res string * World;
  set_iteration : list string -> list string
    (** the order in which a [set] of strings is iterated *)
}.

(** Calls into the libraries, as they appear in the trace. *)
Inductive ExtCall (env : Env) : Type :=
| CudaIsAvailable
| ProcessorFromPretrained (name : string)
| ModelFromPretrained (name : string)
| ModelTo (m : Model env) (device : string)
| ModelHalf (m : Model env)
| ModelEval (m : Model env)
| ProcessorCall (p : Processor env) (image : Image env) (text : option string)
| InputsTo (i : Inputs env) (device : string)
| InputsHalf (i : Inputs env)
| Generate (m : Model env) (i : Inputs env) (kw : GenerateKwargs)
| Decode (p : Processor env) (o : Output env)
| RenderTemplate (name : string).
Arguments CudaIsAvailable {env}.
Arguments ProcessorFromPretrained {env} name.
Arguments ModelFromPretrained {env} name.
Arguments ModelTo {env} m device.
Arguments ModelHalf {env} m.
Arguments ModelEval {env} m.
Arguments ProcessorCall {env} p image text.
Arguments InputsTo {env} i device.
Arguments InputsHalf {env} i.
Arguments Generate {env} m i kw.
Arguments Decode {env} p o.
Arguments RenderTemplate {env} name.

Inductive Event (env : Env) : Type :=
| Log (level : LogLevel) (msg : string)
| Call (c : ExtCall env).
Arguments Log {env} level msg.
Arguments Call {env} c.

(** The module-level names of [model_loader.py] that a function rebinds
    ([global _device] in [get_device], [global _model, _processor] in
    [get_model]). *)
Record Globals (env : Env) : Type := mkGlobals {
  _model : option (Model env);
  _processor : option (Processor env);
  _device : option string
}.
Arguments mkGlobals {env} _ _ _.
Arguments _model {env} g.
Arguments _processor {env} g.
Arguments _device {env} g.

(** The state of the process: the globals, the outside world, and the trace
    of log records and library calls, newest first. *)
Record St (env : Env) : Type := mkSt {
  globals : Globals env;
  world : World env;
  trace : list (Event env)
}.
Arguments mkSt {env} _ _ _.
Arguments globals {env} s.
Arguments world {env} s.
Arguments trace {env} s.

(** The module as first imported: [_model = None], [_processor = None],
    [_device = None]. *)
Definition initial_globals (env : Env) : Globals env :=
  mkGlobals None None None.

(** The state after one more log record. *)
Definition logged {env : Env} (level : LogLevel) (msg : string) (st : St env) : St env :=
  mkSt (globals st) (world st) (Log level msg :: trace st).

(** ** A state-and-exception monad *)

Definition M (env : Env) (A : Type) : Type := St env -> Res A * St env.

Definition ret {env A} (a : A) : M env A := fun st => (Ok a, st).

Definition raise {env A} (e : exn) : M env A := fun st => (Raise e, st).

Definition bind {env A B} (m : M env A) (k : A -> M env B) : M env B :=
  fun st =>
    match m st with
    | (Ok a, st') => k a st'
    | (Raise e, st') => (Raise e, st')
    end.

(** [try: m  except Exception as e: h e] *)
Definition try_except {env A} (m : M env A) (h : exn -> M env A) : M env A :=
  fun st =>
    match m st with
    | (Ok a, st') => (Ok a, st')
    | (Raise e, st') => h e st'
    end.

(** A value computed without touching the state that may raise. *)
Definition lift {env A} (r : Res A) : M env A := fun st => (r, st).

Declare Scope py_scope.
Delimit Scope py_scope with py.
Notation "x <- m ;; k" := (bind m (fun x => k))
  (at level 100, m at next level, right associativity) : py_scope.
Notation "m ;; k" := (bind m (fun _ => k))
  (at level 100, right associativity) : py_scope.
Notation "' p <- m ;; k" := (bind m (fun x => match x with p => k end))
  (at level 100, p pattern, m at next level, right associativity) : py_scope.
#[local] Open Scope py_scope.

Section ModelLoader.

Variable env : Env.

#[local] Abbreviation M := (M env).

(** *** State access *)

Definition read_globals : M (Globals env) := fun st => (Ok (globals st), st).

Definition write_globals (g : Globals env) : M unit :=
  fun st => (Ok tt, mkSt g (world st) (trace st)).

(** [_model = v] under [global _model] *)
Definition assign_model (v : Model env) : M unit :=
  g <- read_globals ;;
  write_globals (mkGlobals (Some v) (_processor g) (_device g)).

(** [_processor = v] under [global _processor] *)
Definition assign_processor (v : Processor env) : M unit :=
  g <- read_globals ;;
  write_globals (mkGlobals (_model g) (Some v) (_device g)).

(** [_device = v] under [global _device] *)
Definition assign_device (v : string) : M unit :=
  g <- read_globals ;;
  write_globals (mkGlobals (_model g) (_processor g) (Some v)).

Definition emit (ev : Event env) : M unit :=
  fun st => (Ok tt, mkSt (globals st) (world st) (ev :: trace st)).

Definition logger_info (msg : string) : M unit := emit (Log INFO msg).

Definition logger_error (msg : string) : M unit := emit (Log ERROR msg).

(** A library call: it is recorded in the trace, acts on the outside world
    and returns or raises as the oracle says. *)
Definition call {A} (c : ExtCall env) (f : World env -> Res A * World env) : M A :=
  fun st =>
    let (r, w) := f (world st) in
    (r, mkSt (globals st) w (Call c :: trace st)).

(** *** model_loader.py *)

(** [get_device()] *)
Definition get_device : M string :=
  g <- read_globals ;;
  match _device g with
  | None =>
      available <- call CudaIsAvailable
                     (fun w => (Ok (torch_cuda_is_available env w), w)) ;;
      if available : bool then
        assign_device "cuda" ;;
        logger_info "Using GPU (CUDA) for inference" ;;
        ret "cuda"
      else
        assign_device "cpu" ;;
        logger_info "Using CPU for inference" ;;
        ret "cpu"
  | Some d => ret d
  end.

Definition model_name : string := "Salesforce/blip-image-captioning-large".

(** The body of the [try] in [get_model]: every assignment to [_model] and
    [_processor] is written to the globals where the source makes it, so an
    exception half-way leaves what was assigned before it. *)
Definition load_model : M (Model env * Processor env) :=
  p <- call (ProcessorFromPretrained model_name)
         (BlipProcessor_from_pretrained env model_name) ;;
  assign_processor p ;;
  m <- call (ModelFromPretrained model_name)
         (BlipForConditionalGeneration_from_pretrained env model_name) ;;
  assign_model m ;;
  device <- get_device ;;
  m1 <- call (ModelTo m device) (model_to env m device) ;;
  assign_model m1 ;;
  m2 <- (if String.eqb device "cuda" then
           h <- call (ModelHalf m1) (model_half env m1) ;;
           assign_model h ;;
           logger_info "Enabled half-precision (fp16) for faster GPU inference" ;;
           ret h
         else ret m1) ;;
  call (ModelEval m2) (model_eval env m2) ;;
  logger_info ("Model loaded successfully on " ++ device) ;;
  ret (m2, p).

(** [get_model()] *)
Definition get_model : M (Model env * Processor env) :=
  g <- read_globals ;;
  match _model g, _processor g with
  | Some m, Some p => ret (m, p)
  | _, _ =>
      logger_info "Loading BLIP model... This may take a few minutes on first run." ;;
      try_except load_model
        (fun e => logger_error ("Error loading model: " ++ exn_str e) ;; raise e)
  end.

(** The defaults in the signature
    [generate_caption(image, max_length=50, num_beams=4)]. *)
Definition DEFAULT_MAX_LENGTH : Z := 50.
Definition DEFAULT_NUM_BEAMS : Z := 4.

(** [generate_caption(image, max_length, num_beams)].  [torch.no_grad()]
    only switches gradient recording off and is not modelled. *)
Definition generate_caption (image : Image env) (max_length num_beams : Z) : M string :=
  try_except
    ('(model, processor) <- get_model ;;
     device <- get_device ;;
     encoded <- call (ProcessorCall processor image None)
                  (processor_call env processor image None) ;;
     inputs <- call (InputsTo encoded device) (inputs_to env encoded device) ;;
     let kw := mkKwargs max_length num_beams true None None in
     output <- call (Generate model inputs kw) (model_generate env model inputs kw) ;;
     caption <- call (Decode processor output) (processor_decode env processor output) ;;
     logger_info ("Generated caption: " ++ caption) ;;
     ret caption)
    (fun e => logger_error ("Error generating caption: " ++ exn_str e) ;; raise e).

Definition text_prompt : string := "a detailed description of".

(** Lines 126-148 of [generate_detailed_caption]: everything up to and
    including [processor.decode]. *)
Definition detailed_decode (image : Image env) : M string :=
  '(model, processor) <- get_model ;;
  device <- get_device ;;
  encoded <- call (ProcessorCall processor image (Some text_prompt))
               (processor_call env processor image (Some text_prompt)) ;;
  moved <- call (InputsTo encoded device) (inputs_to env encoded device) ;;
  inputs <- (if String.eqb device "cuda"
             then call (InputsHalf moved) (inputs_half env moved)
             else ret moved) ;;
  let kw := mkKwargs 70 4 true (Some false) (Some 1.2%Q) in
  output <- call (Generate model inputs kw) (model_generate env model inputs kw) ;;
  call (Decode processor output) (processor_decode env processor output).

(** Lines 150-152: drop the prompt when the caption starts with it. *)
Definition clean_up (caption : string) : string :=
  if PyStr.startswith (PyStr.lower caption) "a detailed description of"
  then PyStr.strip (PyStr.slice_from (String.length "a detailed description of") caption)
  else caption.

(** [generate_detailed_caption(image)] *)
Definition generate_detailed_caption (image : Image env) : M string :=
  try_except
    (decoded <- detailed_decode image ;;
     let caption := clean_up decoded in
     logger_info ("Generated detailed caption: " ++ caption) ;;
     ret caption)
    (fun e => logger_error ("Error generating detailed caption: " ++ exn_str e) ;; raise e).

End ModelLoader.

(** ** app.py *)

Section App.

Variable env : Env.

#[local] Abbreviation M := (M env).

(** [app.config['MAX_CONTENT_LENGTH']] *)
Definition MAX_CONTENT_LENGTH : Z := 16 * 1024 * 1024.

Definition ALLOWED_EXTENSIONS : list string :=
  ["png"; "jpg"; "jpeg"; "gif"; "bmp"; "webp"].

(** [allowed_file(filename)]; the index [[1]] into the result of [rsplit]
    raises [IndexError] when there is no second element. *)
Definition allowed_file (filename : string) : Res bool :=
  if PyStr.contains "." filename then
    match nth_error (PyStr.rsplit1 "." filename) 1 with
    | Some ext => Ok (PyStr.mem (PyStr.lower ext) ALLOWED_EXTENSIONS)
    | None => Raise IndexError
    end
  else Ok false.

(** [request.files] and [request.form].  Werkzeug parses the body on the
    first access of either, and raises [RequestEntityTooLarge] there when
    the content length is above [MAX_CONTENT_LENGTH]. *)
Definition request_files (req : Request) : M (list (string * FileStorage)) :=
  if MAX_CONTENT_LENGTH <? content_length req
  then raise RequestEntityTooLarge
  else ret (files req).

Definition request_form (req : Request) : M (list (string * string)) :=
  if MAX_CONTENT_LENGTH <? content_length req
  then raise RequestEntityTooLarge
  else ret (form req).

(** [d.get(key, default)] *)
Definition form_get (d : list (string * string)) (key default : string) : string :=
  match multidict_get key d with
  | Some v => v
  | None => default
  end.

(** Lines 65-70, the body of the inner [try]: read the bytes, open them as
    an image, convert to RGB if necessary. *)
Definition read_image (file : FileStorage) : Res (Image env) :=
  match read file with
  | Raise e => Raise e
  | Ok image_bytes =>
      match Image_open env image_bytes with
      | Raise e => Raise e
      | Ok image =>
          if negb (String.eqb (image_mode env image) "RGB")
          then image_convert env image "RGB"
          else Ok image
      end
  end.

(** Lines 81-84: the caption function is chosen by the caption type. *)
Definition select_caption (caption_type : string) (image : Image env) : M string :=
  if String.eqb caption_type "detailed"
  then generate_detailed_caption env image
  else generate_caption env image DEFAULT_MAX_LENGTH DEFAULT_NUM_BEAMS.

(** Lines 80 and 86-96, the [try] around the caption call: the 200 answer
    when it returns, the 500 answer when it raises. *)
Definition answer_with (file : FileStorage) (captioner : M string) : M Response :=
  try_except
    (caption <- captioner ;;
     logger_info env ("Successfully generated caption for " ++ filename file) ;;
     ret (jsonify [("success", JBool true);
                   ("caption", JStr caption);
                   ("filename", JStr (filename file))] 200))
    (fun e =>
       logger_error env ("Error generating caption: " ++ exn_str e) ;;
       ret (error_response "Failed to generate caption. Please try again." 500)).

(** Lines 80-96: generate the caption and build the response. *)
Definition caption_response (file : FileStorage) (caption_type : string)
    (image : Image env) : M Response :=
  answer_with file (select_caption caption_type image).

(** [upload_image()], the view of [POST /upload] *)
Definition upload_image (req : Request) : M Response :=
  try_except
    (fs <- request_files req ;;
     match multidict_get "image" fs with
     | None => ret (error_response "No image file provided" 400)
     | Some file =>
         if String.eqb (filename file) "" then
           ret (error_response "No file selected" 400)
         else
           allowed <- lift (allowed_file (filename file)) ;;
           if negb allowed then
             ret (error_response
                    ("Invalid file type. Allowed types: "
                     ++ PyStr.join ", " (set_iteration env ALLOWED_EXTENSIONS))
                    400)
           else
             decoded <- try_except
                          (image <- lift (read_image file) ;; ret (inl image))
                          (fun e =>
                             logger_error env ("Error reading image: " ++ exn_str e) ;;
                             ret (inr (error_response
                                         "Invalid or corrupted image file" 400))) ;;
             match decoded with
             | inr response => ret response
             | inl image =>
                 fm <- request_form req ;;
                 let caption_type := form_get fm "type" "default" in
                 caption_response file caption_type image
             end
     end)
    (fun e =>
       logger_error env ("Unexpected error: " ++ exn_str e) ;;
       ret (error_response "An unexpected error occurred" 500)).

(** [index()] *)
Definition index : M Response :=
  page <- call env (RenderTemplate "index.html") (render_template env "index.html") ;;
  ret {| body := Html page; status := 200 |}.

(** [health_check()] *)
Definition health_check : M Response :=
  ret (jsonify [("status", JStr "healthy"); ("service", JStr "Image Captioning API")] 200).

(** [@app.errorhandler(413)] *)
Definition request_entity_too_large (error : exn) : Response :=
  error_response "File too large. Maximum size is 16MB" 413.

(** [@app.errorhandler(404)] *)
Definition not_found (error : exn) : Response :=
  error_response "Endpoint not found" 404.

(** [@app.errorhandler(500)] *)
Definition internal_error (error : exn) : Response :=
  error_response "Internal server error" 500.

(** What Flask does with an exception that leaves a view: the handler
    registered for its status code answers, and an exception that is not an
    HTTP exception goes to the handler for 500. *)
Definition handle_exception (e : exn) : Response :=
  match e with
  | RequestEntityTooLarge => request_entity_too_large e
  | _ => internal_error e
  end.

(** A [POST] to [/upload] as the application answers it. *)
Definition post_upload (req : Request) : M Response :=
  try_except (upload_image req) (fun e => ret (handle_exception e)).

End App.

(** ** The process over time *)

(** What can happen during the life of the process: a call of one of the
    functions of [model_loader.py], a request to one of the routes, or a
    change of the outside world (a GPU appears or disappears, the network
    goes away). *)
Inductive Op (env : Env) : Type :=
| OpGetDevice
| OpGetModel
| OpGenerateCaption (image : Image env) (max_length num_beams : Z)
| OpGenerateDetailedCaption (image : Image env)
| OpUpload (req : Request)
| OpIndex
| OpHealthCheck
| OpOutside (f : World env -> World env).
Arguments OpGetDevice {env}.
Arguments OpGetModel {env}.
Arguments OpGenerateCaption {env} image max_length num_beams.
Arguments OpGenerateDetailedCaption {env} image.
Arguments OpUpload {env} req.
Arguments OpIndex {env}.
Arguments OpHealthCheck {env}.
Arguments OpOutside {env} f.

Definition step {env : Env} (op : Op env) (st : St env) : St env :=
  match op with
  | OpGetDevice => snd (get_device env st)
  | OpGetModel => snd (get_model env st)
  | OpGenerateCaption image ml nb => snd (generate_caption env image ml nb st)
  | OpGenerateDetailedCaption image => snd (generate_detailed_caption env image st)
  | OpUpload req => snd (post_upload env req st)
  | OpIndex => snd (index env st)
  | OpHealthCheck => snd (health_check env st)
  | OpOutside f => mkSt (globals st) (f (world st)) (trace st)
  end.

Definition run {env : Env} (ops : list (Op env)) (st : St env) : St env :=
  fold_left (fun s op => step op s) ops st.

(** ** A small concrete world

    A toy instance of the library interface, used to run the embedding on
    concrete inputs.  An image is a colour mode and a text; the first byte of
    an upload picks the mode ([R] for RGB, anything else for L), the rest is
    the text, and an empty upload does not decode.  The toy model captions an
    image with its text (after the prompt, when there is one) and fails on an
    image without text.  The world is whether a GPU is available. *)
Module Toy.

Definition open_bytes (bytes : list Byte.byte) : Res (string * string) :=
  match bytes with
  | [] => Raise (PyException "UnidentifiedImageError" "cannot identify image file")
  | b :: rest =>
      Ok (if Byte.eqb b Byte.x52 then "RGB" else "L", string_of_list_byte rest)
  end.

Definition encode (p : nat) (image : string * string) (text : option string)
    (w : bool) : Res string * bool :=
  match text with
  | Some prompt => (Ok (prompt ++ " " ++ snd image), w)
  | None => (Ok (snd image), w)
  end.

Definition generate (m : nat) (inputs : string) (kw : GenerateKwargs)
    (w : bool) : Res string * bool :=
  if String.eqb inputs "" then (Raise (PyException "RuntimeError" "empty input"), w)
  else (Ok inputs, w).

Definition env : Env :=
  {| Model := nat;
     Processor := nat;
     Image := string * string;
     Inputs := string;
     Output := string;
     World := bool;
     torch_cuda_is_available := fun w => w;
     BlipProcessor_from_pretrained := fun _ w => (Ok 1%nat, w);
     BlipForConditionalGeneration_from_pretrained := fun _ w => (Ok 2%nat, w);
     model_to := fun m _ w => (Ok m, w);
     model_half := fun m w => (Ok m, w);
     model_eval := fun _ w => (Ok tt, w);
     processor_call := encode;
     inputs_to := fun i _ w => (Ok i, w);
     inputs_half := fun i w => (Ok i, w);
     model_generate := generate;
     processor_decode := fun _ o w => (Ok o, w);
     Image_open := open_bytes;
     image_mode := fst;
     image_convert := fun image mode => Ok (mode, snd image);
     render_template := fun _ w => (Ok "<html></html>", w);
     set_iteration := fun l => l |}.

(** A freshly started process on a machine without a GPU. *)
Definition start : St env := mkSt (initial_globals env) false [].

Definition upload (name : string) (content : string) (fields : list (string * string))
    : Request :=
  {| content_length := Z.of_nat (String.length content);
     files := [("image", mkFile name (Ok (list_byte_of_string content)))];
     form := fields |}.

End Toy.

(** ** Predicates in the words of the specification *)

(** "The filename contains a '.' and the substring after its last '.'
    lowercases to one of the allowed extensions": the text after the last
    dot is the [ext] of a decomposition [stem ++ "." ++ ext] whose [ext] has
    no dot of its own. *)
Definition has_allowed_extension (filename : string) : Prop :=
  (exists a b, filename = a ++ "." ++ b) /\
  exists stem ext,
    filename = stem ++ "." ++ ext /\
    (forall a b, ext <> a ++ "." ++ b) /\
    In (PyStr.lower ext) ["png"; "jpg"; "jpeg"; "gif"; "bmp"; "webp"].

(** An HTTP 400 whose JSON body is a single ['error'] that starts with
    [Invalid file type]. *)
Definition invalid_file_type_response (r : Response) : Prop :=
  status r = 400 /\
  exists msg, body r = Json [("error", JStr msg)]
              /\ PyStr.startswith msg "Invalid file type" = true.

(** The request gets as far as reading the image: its body is within the
    size cap, it has an ['image'] part with a file name, and the file name
    has an allowed extension. *)
Definition reaches_decoding (req : Request) (file : FileStorage) : Prop :=
  content_length req <= MAX_CONTENT_LENGTH /\
  multidict_get "image" (files req) = Some file /\
  filename file <> "" /\
  allowed_file (filename file) = Ok true.

(** PIL's contract for [Image.convert]: the image it returns has the mode that
    was asked for. *)
Definition convert_yields_mode (env : Env) : Prop :=
  forall (image converted : Image env) (mode : string),
    image_convert env image mode = Ok converted -> image_mode env converted = mode.

(** *** Stripping in the words of the specification *)

Fixpoint all_space (s : string) : bool :=
  match s with
  | EmptyString => true
  | String c s' => PyStr.isspace c && all_space s'
  end.

Definition first_char (s : string) : option ascii :=
  match s with
  | EmptyString => None
  | String c _ => Some c
  end.

Fixpoint last_char (s : string) : option ascii :=
  match s with
  | EmptyString => None
  | String c EmptyString => Some c
  | String _ s' => last_char s'
  end.

(** [t] is [s] without its surrounding whitespace: [s] is [t] between two
    runs of whitespace, and [t] neither starts nor ends with whitespace. *)
Definition trimmed (s t : string) : Prop :=
  (exists l r, s = l ++ t ++ r /\ all_space l = true /\ all_space r = true)
  /\ (forall c, first_char t = Some c -> PyStr.isspace c = false)
  /\ (forall c, last_char t = Some c -> PyStr.isspace c = false).

(** *** Traces and invariants of the globals *)

(** [st'] continues [st]: its trace is the trace of [st] with new events in
    front, each of which satisfies [Q]. *)
Definition emits_only {env : Env} (Q : Event env -> Prop) (st st' : St env) : Prop :=
  exists new, trace st' = (new ++ trace st)%list /\ Forall Q new.

(** Running [m] keeps the invariant [I] of the globals and emits only events
    that satisfy [Q]. *)
Definition respects {env : Env} (I : Globals env -> Prop) (Q : Event env -> Prop)
    {A : Type} (m : M env A) : Prop :=
  forall st, I (globals st) ->
             I (globals (snd (m st))) /\ emits_only Q st (snd (m st)).

(** The model and processor are loaded and are [m] and [p]. *)
Definition loaded {env : Env} (m : Model env) (p : Processor env) (g : Globals env) : Prop :=
  _model g = Some m /\ _processor g = Some p.

(** The device is cached and is [d]. *)
Definition device_cached {env : Env} (d : string) (g : Globals env) : Prop :=
  _device g = Some d.

(** The event is not a call of [from_pretrained]. *)
Definition not_a_load {env : Env} (ev : Event env) : Prop :=
  match ev with
  | Call (ProcessorFromPretrained _) => False
  | Call (ModelFromPretrained _) => False
  | _ => True
  end.

(** The calls of [model.generate] in a trace, oldest first. *)
Fixpoint generate_calls {env : Env} (t : list (Event env)) : list GenerateKwargs :=
  match t with
  | [] => []
  | Call (Generate _ _ kw) :: rest => (generate_calls rest ++ [kw])%list
  | _ :: rest => generate_calls rest
  end.

(** The event is not a call of [model.generate]. *)
Definition not_a_generate {env : Env} (ev : Event env) : Prop :=
  match ev with
  | Call (Generate _ _ _) => False
  | _ => True
  end.

Definition any_event {env : Env} (ev : Event env) : Prop := True.

(** *** The outcomes of an upload *)

(** [jsonify({'success': True, 'caption': caption, 'filename': name}), 200] *)
Definition success_response (caption name : string) : Response :=
  jsonify [("success", JBool true); ("caption", JStr caption); ("filename", JStr name)] 200.

(** The seven ways through [upload_image]: which request and which library
    results lead to which response and which state. *)
Inductive upload_case (env : Env) (req : Request) (st : St env)
  : Response -> St env -> Prop :=
| case_oversize :
    MAX_CONTENT_LENGTH < content_length req ->
    upload_case env req st
      (error_response "An unexpected error occurred" 500)
      (logged ERROR ("Unexpected error: " ++ exn_str RequestEntityTooLarge) st)
| case_no_part :
    content_length req <= MAX_CONTENT_LENGTH ->
    multidict_get "image" (files req) = None ->
    upload_case env req st (error_response "No image file provided" 400) st
| case_no_name (file : FileStorage) :
    content_length req <= MAX_CONTENT_LENGTH ->
    multidict_get "image" (files req) = Some file ->
    filename file = "" ->
    upload_case env req st (error_response "No file selected" 400) st
| case_bad_type (file : FileStorage) :
    content_length req <= MAX_CONTENT_LENGTH ->
    multidict_get "image" (files req) = Some file ->
    filename file <> "" ->
    allowed_file (filename file) = Ok false ->
    upload_case env req st
      (error_response
         ("Invalid file type. Allowed types: "
          ++ PyStr.join ", " (set_iteration env ALLOWED_EXTENSIONS)) 400)
      st
| case_undecodable (file : FileStorage) (e : exn) :
    reaches_decoding req file ->
    read_image env file = Raise e ->
    upload_case env req st
      (error_response "Invalid or corrupted image file" 400)
      (logged ERROR ("Error reading image: " ++ exn_str e) st)
| case_caption_failed (file : FileStorage) (image : Image env) (e : exn) (st1 : St env) :
    reaches_decoding req file ->
    read_image env file = Ok image ->
    select_caption env (form_get (form req) "type" "default") image st = (Raise e, st1) ->
    upload_case env req st
      (error_response "Failed to generate caption. Please try again." 500)
      (logged ERROR ("Error generating caption: " ++ exn_str e) st1)
| case_captioned (file : FileStorage) (image : Image env) (caption : string)
    (st1 : St env) :
    reaches_decoding req file ->
    read_image env file = Ok image ->
    select_caption env (form_get (form req) "type" "default") image st = (Ok caption, st1) ->
    upload_case env req st
      (success_response caption (filename file))
      (logged INFO ("Successfully generated caption for " ++ filename file) st1).

(** The event is not one of the calls that set the model up: fetching the
    processor or the model, moving the model to the device, switching it to
    half precision or to evaluation mode. *)
Definition not_a_setup {env : Env} (ev : Event env) : Prop :=
  match ev with
  | Call (ProcessorFromPretrained _) => False
  | Call (ModelFromPretrained _) => False
  | Call (ModelTo _ _) => False
  | Call (ModelHalf _) => False
  | Call (ModelEval _) => False
  | _ => True
  end.

(** The call fetches the processor or the model. *)
Definition is_fetch {env : Env} (c : ExtCall env) : Prop :=
  match c with
  | ProcessorFromPretrained _ => True
  | ModelFromPretrained _ => True
  | _ => False
  end.

(** The call is one of the steps of [get_model] that come after the model
    has been fetched and assigned. *)
Definition after_fetch {env : Env} (c : ExtCall env) : Prop :=
  match c with
  | ModelTo _ _ => True
  | ModelHalf _ => True
  | ModelEval _ => True
  | _ => False
  end.

(** *** A toy world whose GPU is out of memory

    As [Toy.env], with a GPU present, except that moving the model to the
    device fails. *)
Module ToyFaults.

Definition env : Env :=
  {| Model := nat;
     Processor := nat;
     Image := string * string;
     Inputs := string;
     Output := string;
     World := bool;
     torch_cuda_is_available := fun w => w;
     BlipProcessor_from_pretrained := fun _ w => (Ok 1%nat, w);
     BlipForConditionalGeneration_from_pretrained := fun _ w => (Ok 2%nat, w);
     model_to := fun _ _ w => (Raise (PyException "RuntimeError" "CUDA out of memory"), w);
     model_half := fun m w => (Ok m, w);
     model_eval := fun _ w => (Ok tt, w);
     processor_call := Toy.encode;
     inputs_to := fun i _ w => (Ok i, w);
     inputs_half := fun i w => (Ok i, w);
     model_generate := Toy.generate;
     processor_decode := fun _ o w => (Ok o, w);
     Image_open := Toy.open_bytes;
     image_mode := fst;
     image_convert := fun image mode => Ok (mode, snd image);
     render_template := fun _ w => (Ok "<html></html>", w);
     set_iteration := fun l => l |}.

(** A freshly started process on a machine with a GPU. *)
Definition start : St env := mkSt (initial_globals env) true [].

(** As [Toy.env], except that the model cannot be downloaded. *)
Definition offline : Env :=
  {| Model := nat;
     Processor := nat;
     Image := string * string;
     Inputs := string;
     Output := string;
     World := bool;
     torch_cuda_is_available := fun w => w;
     BlipProcessor_from_pretrained := fun _ w => (Ok 1%nat, w);
     BlipForConditionalGeneration_from_pretrained :=
       fun _ w => (Raise (PyException "OSError" "cannot reach the model hub"), w);
     model_to := fun m _ w => (Ok m, w);
     model_half := fun m w => (Ok m, w);
     model_eval := fun _ w => (Ok tt, w);
     processor_call := Toy.encode;
     inputs_to := fun i _ w => (Ok i, w);
     inputs_half := fun i w => (Ok i, w);
     model_generate := Toy.generate;
     processor_decode := fun _ o w => (Ok o, w);
     Image_open := Toy.open_bytes;
     image_mode := fst;
     image_convert := fun image mode => Ok (mode, snd image);
     render_template := fun _ w => (Ok "<html></html>", w);
     set_iteration := fun l => l |}.

Definition offline_start : St offline := mkSt (initial_globals offline) false [].

End ToyFaults.

(** ** Facts about the string operations *)

Section StringFacts.

Variable sep : ascii.

Lemma contains_app_sep (pre post : string) :
  PyStr.contains sep (pre ++ String sep post) = true.
Proof.
  induction pre as [|a pre IH]; simpl.
  - now rewrite Ascii.eqb_refl.
  - rewrite IH. now destruct (Ascii.eqb a sep).
Qed.

Lemma contains_false_no_split (s : string) :
  PyStr.contains sep s = false <-> forall a b, s <> a ++ String sep b.
Proof.
  split.
  - intros H a b ->. rewrite contains_app_sep in H. discriminate.
  - induction s as [|c s IH]; intros H; simpl; [reflexivity|].
    destruct (Ascii.eqb c sep) eqn:E.
    + apply Ascii.eqb_eq in E. subst c. exfalso. now apply (H EmptyString s).
    + apply IH. intros a b ->. now apply (H (String c a) b).
Qed.

Lemma contains_true_split (s : string) :
  PyStr.contains sep s = true <-> exists a b, s = a ++ String sep b.
Proof.
  split.
  - induction s as [|c s IH]; simpl; [discriminate|].
    destruct (Ascii.eqb c sep) eqn:E.
    + apply Ascii.eqb_eq in E. subst c. intros _. now exists EmptyString, s.
    + intros H. destruct (IH H) as (a & b & ->). now exists (String c a), b.
  - intros (a & b & ->). apply contains_app_sep.
Qed.

Lemma rpartition_None (s : string) :
  PyStr.rpartition sep s = None <-> PyStr.contains sep s = false.
Proof.
  induction s as [|c s IH]; simpl; [tauto|].
  destruct (PyStr.rpartition sep s) as [[pre post]|].
  - split; [discriminate|].
    destruct (Ascii.eqb c sep); [discriminate|].
    intros H. apply IH in H. discriminate.
  - destruct (Ascii.eqb c sep); split; try discriminate; try reflexivity.
    intros _. now apply IH.
Qed.

Lemma rpartition_Some (s pre post : string) :
  PyStr.rpartition sep s = Some (pre, post)
  <-> s = pre ++ String sep post /\ PyStr.contains sep post = false.
Proof.
  split.
  - revert pre. induction s as [|c s IH]; intros pre; simpl; [discriminate|].
    destruct (PyStr.rpartition sep s) as [[p q]|] eqn:E.
    + intros [= <- <-]. destruct (IH p eq_refl) as [-> Hq]. now split.
    + destruct (Ascii.eqb c sep) eqn:Ec; [|discriminate].
      intros [= <- <-]. apply Ascii.eqb_eq in Ec. subst c.
      split; [reflexivity|]. now apply rpartition_None.
  - intros [-> Hpost]. induction pre as [|c pre IH]; simpl.
    + apply rpartition_None in Hpost. rewrite Hpost.
      now rewrite Ascii.eqb_refl.
    + now rewrite IH.
Qed.

End StringFacts.

Lemma mem_In (x : string) (l : list string) :
  PyStr.mem x l = true <-> In x l.
Proof.
  unfold PyStr.mem. rewrite existsb_exists. split.
  - intros (y & Hy & E). apply String.eqb_eq in E. now subst.
  - intros H. exists x. split; [assumption|apply String.eqb_refl].
Qed.

(** ** allowed_file *)

Lemma allowed_file_total (filename : string) :
  exists b, allowed_file filename = Ok b.
Proof.
  unfold allowed_file, PyStr.rsplit1.
  destruct (PyStr.contains "." filename) eqn:C; [|now exists false].
  destruct (PyStr.rpartition "." filename) as [[pre post]|] eqn:E.
  - simpl. eauto.
  - apply rpartition_None in E. congruence.
Qed.

Lemma allowed_file_true (filename : string) :
  allowed_file filename = Ok true <-> has_allowed_extension filename.
Proof.
  unfold allowed_file, PyStr.rsplit1, has_allowed_extension. split.
  - destruct (PyStr.contains "." filename) eqn:C; [|discriminate].
    destruct (PyStr.rpartition "." filename) as [[pre post]|] eqn:E;
      [|discriminate].
    cbn [nth_error]. intros [= Hm]. apply rpartition_Some in E. destruct E as [-> Hpost].
    split; [now exists pre, post|].
    exists pre, post. split; [reflexivity|]. split.
    + now apply contains_false_no_split.
    + now apply mem_In.
  - intros [_ (stem & ext & -> & Hext & Hin)].
    change (stem ++ "." ++ ext) with (stem ++ String "." ext).
    rewrite contains_app_sep.
    assert (E : PyStr.rpartition "." (stem ++ String "." ext) = Some (stem, ext)).
    { apply rpartition_Some. split; [reflexivity|].
      now apply contains_false_no_split. }
    rewrite E. cbn [nth_error]. f_equal. now apply mem_In.
Qed.

(** ** Facts about stripping and prefixes *)

Lemma lstrip_spec (s : string) :
  (exists l, s = l ++ PyStr.lstrip s /\ all_space l = true)
  /\ (forall c, first_char (PyStr.lstrip s) = Some c -> PyStr.isspace c = false).
Proof.
  induction s as [|a s [(l & E & A) F]]; cbn [PyStr.lstrip].
  - split; [now exists EmptyString|now intros c].
  - destruct (PyStr.isspace a) eqn:W.
    + split; [|exact F]. exists (String a l). cbn [append all_space].
      rewrite W, A. now rewrite <- E.
    + split; [now exists EmptyString|]. cbn [first_char]. now intros c [= <-].
Qed.

Lemma rstrip_spec (s : string) :
  (exists r, s = PyStr.rstrip s ++ r /\ all_space r = true)
  /\ (forall c, last_char (PyStr.rstrip s) = Some c -> PyStr.isspace c = false)
  /\ (forall c, first_char (PyStr.rstrip s) = Some c -> first_char s = Some c).
Proof.
  induction s as [|a s [(r & E & A) [L F]]]; cbn [PyStr.rstrip].
  - repeat split; [now exists EmptyString|now intros c|now intros c].
  - destruct (PyStr.rstrip s) as [|b q] eqn:R.
    + cbn [append] in E. subst r. destruct (PyStr.isspace a) eqn:W.
      * repeat split; [|now intros c|now intros c].
        exists (String a s). cbn [append all_space]. now rewrite W, A.
      * repeat split; [now exists s| |now cbn [first_char]].
        cbn [last_char]. now intros c [= <-].
    + repeat split; [|exact L|now cbn [first_char]].
      exists r. cbn [append]. cbn [append] in E. now rewrite <- E.
Qed.

Lemma strip_trimmed (s : string) : trimmed s (PyStr.strip s).
Proof.
  unfold trimmed, PyStr.strip.
  destruct (lstrip_spec s) as [(l & El & Al) Fl].
  destruct (rstrip_spec (PyStr.lstrip s)) as [(r & Er & Ar) [Lr Fr]].
  repeat split.
  - exists l, r. repeat split; try assumption. now rewrite <- Er.
  - intros c H. apply Fl. now apply Fr.
  - exact Lr.
Qed.

Lemma startswith_lower_split (p s : string) :
  PyStr.startswith (PyStr.lower s) p = true ->
  exists head,
    s = head ++ PyStr.slice_from (String.length p) s /\ PyStr.lower head = p.
Proof.
  revert s. induction p as [|a p IH]; intros s; cbn [PyStr.startswith String.length].
  - intros _. now exists EmptyString.
  - destruct s as [|b s]; cbn [PyStr.startswith PyStr.lower PyStr.slice_from];
      [discriminate|].
    destruct (Ascii.eqb a (PyStr.lower_char b)) eqn:E; [|discriminate].
    intros H. destruct (IH s H) as (head & Hs & Hl).
    exists (String b head). cbn [append PyStr.lower]. split.
    + now rewrite <- Hs.
    + apply Ascii.eqb_eq in E. now rewrite Hl, E.
Qed.

(** ** The paths through [upload_image] *)

Section UploadPaths.

Variable env : Env.

#[local] Abbreviation St := (St env).

Ltac py := unfold bind, try_except, ret, raise, lift, logger_error, logger_info, emit;
           cbv beta.

Lemma request_files_within (req : Request) (st : St) :
  content_length req <= MAX_CONTENT_LENGTH ->
  request_files env req st = (Ok (files req), st).
Proof.
  intros H. unfold request_files.
  apply Z.ltb_ge in H. now rewrite H.
Qed.

Lemma request_form_within (req : Request) (st : St) :
  content_length req <= MAX_CONTENT_LENGTH ->
  request_form env req st = (Ok (form req), st).
Proof.
  intros H. unfold request_form.
  apply Z.ltb_ge in H. now rewrite H.
Qed.

Lemma request_files_over (req : Request) (st : St) :
  MAX_CONTENT_LENGTH < content_length req ->
  request_files env req st = (Raise RequestEntityTooLarge, st).
Proof.
  intros H. unfold request_files.
  apply Z.ltb_lt in H. now rewrite H.
Qed.

(** The captioning step answers with a response whatever the caption
    function does. *)
Lemma caption_response_Ok (file : FileStorage) (caption_type : string)
    (image : Image env) (st : St) :
  exists resp st', caption_response env file caption_type image st = (Ok resp, st').
Proof.
  unfold caption_response, answer_with. py.
  destruct (select_caption env caption_type image st) as [[caption|e] st1]; eauto.
Qed.

Lemma upload_image_oversize (req : Request) (st : St) :
  MAX_CONTENT_LENGTH < content_length req ->
  upload_image env req st
  = (Ok (error_response "An unexpected error occurred" 500),
     logged ERROR ("Unexpected error: " ++ exn_str RequestEntityTooLarge) st).
Proof.
  intros H. unfold upload_image. py.
  now rewrite (request_files_over req st H).
Qed.

Lemma upload_image_no_part (req : Request) (st : St) :
  content_length req <= MAX_CONTENT_LENGTH ->
  multidict_get "image" (files req) = None ->
  upload_image env req st = (Ok (error_response "No image file provided" 400), st).
Proof.
  intros H N. unfold upload_image. py.
  rewrite (request_files_within req st H). now rewrite N.
Qed.

Lemma upload_image_no_name (req : Request) (file : FileStorage) (st : St) :
  content_length req <= MAX_CONTENT_LENGTH ->
  multidict_get "image" (files req) = Some file ->
  filename file = "" ->
  upload_image env req st = (Ok (error_response "No file selected" 400), st).
Proof.
  intros H N E. unfold upload_image. py.
  rewrite (request_files_within req st H). rewrite N, E. reflexivity.
Qed.

Lemma upload_image_bad_type (req : Request) (file : FileStorage) (st : St) :
  content_length req <= MAX_CONTENT_LENGTH ->
  multidict_get "image" (files req) = Some file ->
  filename file <> "" ->
  allowed_file (filename file) = Ok false ->
  upload_image env req st
  = (Ok (error_response
           ("Invalid file type. Allowed types: "
            ++ PyStr.join ", " (set_iteration env ALLOWED_EXTENSIONS)) 400), st).
Proof.
  intros H N E A. unfold upload_image. py.
  rewrite (request_files_within req st H). rewrite N.
  apply String.eqb_neq in E. rewrite E, A. reflexivity.
Qed.

Lemma upload_image_undecodable (req : Request) (file : FileStorage) (e : exn) (st : St) :
  content_length req <= MAX_CONTENT_LENGTH ->
  multidict_get "image" (files req) = Some file ->
  filename file <> "" ->
  allowed_file (filename file) = Ok true ->
  read_image env file = Raise e ->
  upload_image env req st
  = (Ok (error_response "Invalid or corrupted image file" 400),
     logged ERROR ("Error reading image: " ++ exn_str e) st).
Proof.
  intros H N E A R. unfold upload_image. py.
  rewrite (request_files_within req st H). rewrite N.
  apply String.eqb_neq in E. rewrite E, A. cbn [negb]. rewrite R. reflexivity.
Qed.

Lemma upload_image_decoded (req : Request) (file : FileStorage) (image : Image env)
    (st : St) :
  content_length req <= MAX_CONTENT_LENGTH ->
  multidict_get "image" (files req) = Some file ->
  filename file <> "" ->
  allowed_file (filename file) = Ok true ->
  read_image env file = Ok image ->
  upload_image env req st
  = caption_response env file (form_get (form req) "type" "default") image st.
Proof.
  intros H N E A R.
  destruct (caption_response_Ok file (form_get (form req) "type" "default") image st)
    as (resp & st' & C).
  unfold upload_image. py.
  rewrite (request_files_within req st H). rewrite N.
  apply String.eqb_neq in E. rewrite E, A. cbn [negb]. rewrite R.
  rewrite (request_form_within req st H). now rewrite C.
Qed.

End UploadPaths.

(** ** Invariants and traces: the rules *)

Section Respects.

Variable env : Env.
Variable I : Globals env -> Prop.
Variable Q : Event env -> Prop.

Lemma emits_only_refl (st : St env) : emits_only Q st st.
Proof. exists []. split; [reflexivity|constructor]. Qed.

Lemma emits_only_trans (st1 st2 st3 : St env) :
  emits_only Q st1 st2 -> emits_only Q st2 st3 -> emits_only Q st1 st3.
Proof.
  intros (n1 & E1 & F1) (n2 & E2 & F2). exists (n2 ++ n1)%list. split.
  - now rewrite E2, E1, app_assoc.
  - apply Forall_app. now split.
Qed.

Lemma respects_ret {A} (a : A) : respects I Q (ret (env := env) a).
Proof. intros st H. split; [exact H|apply emits_only_refl]. Qed.

Lemma respects_raise {A} (e : exn) : respects I Q (raise (env := env) (A := A) e).
Proof. intros st H. split; [exact H|apply emits_only_refl]. Qed.

Lemma respects_lift {A} (r : Res A) : respects I Q (lift (env := env) r).
Proof. intros st H. split; [exact H|apply emits_only_refl]. Qed.

Lemma respects_read_globals : respects I Q (read_globals env).
Proof. intros st H. split; [exact H|apply emits_only_refl]. Qed.

Lemma respects_emit (ev : Event env) : Q ev -> respects I Q (emit env ev).
Proof.
  intros HQ st H. split; [exact H|].
  exists [ev]. split; [reflexivity|]. now constructor.
Qed.

Lemma respects_call {A} (c : ExtCall env) (f : World env -> Res A * World env) :
  Q (Call c) -> respects I Q (call env c f).
Proof.
  intros HQ st H. unfold call. destruct (f (world st)) as [r w]. split; [exact H|].
  exists [Call c]. split; [reflexivity|]. now constructor.
Qed.

Lemma respects_bind {A B} (m : M env A) (k : A -> M env B) :
  respects I Q m -> (forall a, respects I Q (k a)) -> respects I Q (bind m k).
Proof.
  intros Hm Hk st H. unfold bind.
  destruct (Hm st H) as [H1 E1]. destruct (m st) as [[a|e] st1]; cbn [snd] in *.
  - destruct (Hk a st1 H1) as [H2 E2]. split; [exact H2|].
    now apply emits_only_trans with st1.
  - now split.
Qed.

Lemma respects_try_except {A} (m : M env A) (h : exn -> M env A) :
  respects I Q m -> (forall e, respects I Q (h e)) -> respects I Q (try_except m h).
Proof.
  intros Hm Hh st H. unfold try_except.
  destruct (Hm st H) as [H1 E1]. destruct (m st) as [[a|e] st1]; cbn [snd] in *.
  - now split.
  - destruct (Hh e st1 H1) as [H2 E2]. split; [exact H2|].
    now apply emits_only_trans with st1.
Qed.

(** The three assignments keep an invariant that the new globals satisfy. *)
Lemma respects_assign_model (v : Model env) :
  (forall g, I g -> I (mkGlobals (Some v) (_processor g) (_device g))) ->
  respects I Q (assign_model env v).
Proof.
  intros HI st H. split; [now apply HI|].
  exists []. split; [reflexivity|constructor].
Qed.

Lemma respects_assign_processor (v : Processor env) :
  (forall g, I g -> I (mkGlobals (_model g) (Some v) (_device g))) ->
  respects I Q (assign_processor env v).
Proof.
  intros HI st H. split; [now apply HI|].
  exists []. split; [reflexivity|constructor].
Qed.

(** [get_device] assigns only when the device is not cached yet. *)
Lemma respects_get_device :
  (forall g v, I g -> _device g = None -> I (mkGlobals (_model g) (_processor g) (Some v))) ->
  Q (Call CudaIsAvailable) ->
  (forall msg, Q (Log INFO msg)) ->
  respects I Q (get_device env).
Proof.
  intros HI HC HL st H. unfold get_device, bind, read_globals.
  destruct (_device (globals st)) eqn:D.
  - split; [exact H|apply emits_only_refl].
  - unfold call. cbn.
    destruct (torch_cuda_is_available env (world st)); cbn.
    + split; [now apply HI|]. eexists [_; _]. split; [reflexivity|].
      repeat constructor; auto.
    + split; [now apply HI|]. eexists [_; _]. split; [reflexivity|].
      repeat constructor; auto.
Qed.

End Respects.

(** Reducing the matches on results and states that are already known. *)
Ltac reduce_state :=
  cbv beta iota zeta;
  cbn [globals world trace _model _processor _device fst snd].

(** Taking a goal [respects I Q m] apart along the structure of [m]. *)
Ltac respects_step :=
  match goal with
  | |- respects _ _ (bind _ _) => apply respects_bind; [|intros ?]
  | |- respects _ _ (try_except _ _) => apply respects_try_except; [|intros ?]
  | |- respects _ _ (ret _) => apply respects_ret
  | |- respects _ _ (raise _) => apply respects_raise
  | |- respects _ _ (lift _) => apply respects_lift
  | |- respects _ _ (read_globals _) => apply respects_read_globals
  | |- respects _ _ (logger_info _ _) => apply respects_emit
  | |- respects _ _ (logger_error _ _) => apply respects_emit
  | |- respects _ _ (call _ _ _) => apply respects_call
  | |- respects _ _ (assign_model _ _) => apply respects_assign_model
  | |- respects _ _ (assign_processor _ _) => apply respects_assign_processor
  | |- respects _ _ (if ?b then _ else _) => destruct b
  | |- respects _ _ (match ?x with _ => _ end) => destruct x
  | |- respects _ _ _ => assumption
  end.

(** ** Invariants and traces: [model_loader.py] while it may load *)

Section Loading.

Variable env : Env.
Variable I : Globals env -> Prop.
Variable Q : Event env -> Prop.

Hypothesis Q_most : forall ev, (forall m i kw, ev <> Call (Generate m i kw)) -> Q ev.
Hypothesis I_model :
  forall g v, I g -> I (mkGlobals (Some v) (_processor g) (_device g)).
Hypothesis I_processor :
  forall g v, I g -> I (mkGlobals (_model g) (Some v) (_device g)).
Hypothesis I_device :
  forall g v, I g -> _device g = None -> I (mkGlobals (_model g) (_processor g) (Some v)).

Lemma loading_get_device : respects I Q (get_device env).
Proof.
  apply respects_get_device; [exact I_device| |intros msg];
    apply Q_most; discriminate.
Qed.

Lemma loading_load_model : respects I Q (load_model env).
Proof.
  pose proof loading_get_device as D.
  unfold load_model. repeat respects_step;
    solve [ apply Q_most; discriminate | intros g; apply I_model | intros g; apply I_processor ].
Qed.

Lemma loading_get_model : respects I Q (get_model env).
Proof.
  pose proof loading_load_model as L.
  unfold get_model. repeat respects_step; apply Q_most; discriminate.
Qed.

End Loading.

(** ** Invariants and traces: every operation of the process *)

Section Process.

Variable env : Env.
Variable I : Globals env -> Prop.
Variable Q : Event env -> Prop.

Hypothesis Q_quiet : forall ev, not_a_load ev -> Q ev.
Hypothesis I_get_device : respects I Q (get_device env).
Hypothesis I_get_model : respects I Q (get_model env).

Ltac quiet := repeat respects_step; apply Q_quiet; exact Logic.I.

Lemma process_generate_caption (image : Image env) (max_length num_beams : Z) :
  respects I Q (generate_caption env image max_length num_beams).
Proof. unfold generate_caption. quiet. Qed.

Lemma process_generate_detailed_caption (image : Image env) :
  respects I Q (generate_detailed_caption env image).
Proof. unfold generate_detailed_caption, detailed_decode. quiet. Qed.

Lemma process_upload_image (req : Request) : respects I Q (upload_image env req).
Proof.
  pose proof process_generate_caption as G.
  pose proof process_generate_detailed_caption as D.
  unfold upload_image, request_files, request_form, caption_response, answer_with,
    select_caption.
  repeat respects_step; solve [apply Q_quiet; exact Logic.I | apply G | apply D].
Qed.

Lemma process_post_upload (req : Request) : respects I Q (post_upload env req).
Proof.
  pose proof (process_upload_image req) as U.
  unfold post_upload. repeat respects_step.
Qed.

Lemma process_index : respects I Q (index env).
Proof. unfold index. quiet. Qed.

Lemma process_health_check : respects I Q (health_check env).
Proof. unfold health_check. repeat respects_step. Qed.

Lemma process_step (op : Op env) (st : St env) :
  I (globals st) -> I (globals (step op st)) /\ emits_only Q st (step op st).
Proof.
  destruct op; cbn [step].
  - apply I_get_device.
  - apply I_get_model.
  - apply process_generate_caption.
  - apply process_generate_detailed_caption.
  - apply process_post_upload.
  - apply process_index.
  - apply process_health_check.
  - intros H. split; [exact H|]. exists []. split; [reflexivity|constructor].
Qed.

Lemma process_run (ops : list (Op env)) (st : St env) :
  I (globals st) -> I (globals (run ops st)) /\ emits_only Q st (run ops st).
Proof.
  revert st. induction ops as [|op ops IH]; intros st H; cbn [run fold_left].
  - split; [exact H|apply emits_only_refl].
  - destruct (process_step op st H) as [H1 E1].
    destruct (IH (step op st) H1) as [H2 E2].
    split; [exact H2|]. now apply emits_only_trans with (step op st).
Qed.

End Process.

(** ** The cached device and the singleton *)

Section Caching.

Variable env : Env.

#[local] Abbreviation St := (St env).

Lemma get_device_first (st : St) :
  _device (globals st) = None ->
  let d := if torch_cuda_is_available env (world st) then "cuda" else "cpu" in
  fst (get_device env st) = Ok d
  /\ globals (snd (get_device env st))
     = mkGlobals (_model (globals st)) (_processor (globals st)) (Some d).
Proof.
  intros N. unfold get_device, bind, read_globals, call. rewrite N. cbn.
  destruct (torch_cuda_is_available env (world st)); cbn; now split.
Qed.

Lemma get_device_again (st : St) (d : string) :
  device_cached d (globals st) -> get_device env st = (Ok d, st).
Proof.
  intros C. unfold get_device, bind, read_globals. now rewrite C.
Qed.

Lemma get_model_again (st : St) (m : Model env) (p : Processor env) :
  loaded m p (globals st) -> get_model env st = (Ok (m, p), st).
Proof.
  intros [Hm Hp]. unfold get_model, bind, read_globals. now rewrite Hm, Hp.
Qed.

(** Once the device is cached, no operation changes it. *)
Lemma device_cached_run (d : string) (ops : list (Op env)) (st : St) :
  device_cached d (globals st) -> device_cached d (globals (run ops st)).
Proof.
  intros C.
  assert (HI : forall (g : Globals env) (v : string),
                 device_cached d g -> _device g = None ->
                           device_cached d (mkGlobals (_model g) (_processor g) (Some v))).
  { unfold device_cached. intros g v G N. congruence. }
  apply (process_run env (device_cached d) any_event).
  - intros ev _. exact Logic.I.
  - apply loading_get_device; [intros ev _; exact Logic.I | exact HI].
  - apply loading_get_model; [intros ev _; exact Logic.I | | | exact HI];
      intros g v G; exact G.
  - exact C.
Qed.

(** Once model and processor are loaded, no operation replaces them or calls
    [from_pretrained] again. *)
Lemma loaded_run (m : Model env) (p : Processor env) (ops : list (Op env)) (st : St) :
  loaded m p (globals st) ->
  loaded m p (globals (run ops st)) /\ emits_only not_a_load st (run ops st).
Proof.
  apply (process_run env (loaded m p) not_a_load).
  - intros ev H. exact H.
  - apply respects_get_device;
      [intros g v G _; exact G | exact Logic.I | intros msg; exact Logic.I].
  - intros s L. rewrite (get_model_again s m p L). split; [exact L|].
    apply emits_only_refl.
Qed.

(** Once all three globals are set, no operation changes any of them. *)
Lemma globals_frozen_run (m : Model env) (p : Processor env) (d : string)
    (ops : list (Op env)) (st : St) :
  globals st = mkGlobals (Some m) (Some p) (Some d) ->
  globals (run ops st) = globals st.
Proof.
  intros G.
  pose (I := fun g : Globals env => g = mkGlobals (Some m) (Some p) (Some d)).
  assert (R : I (globals (run ops st))).
  { apply (process_run env I any_event).
    - intros ev _. exact Logic.I.
    - apply respects_get_device;
        [| exact Logic.I | intros msg; exact Logic.I].
      unfold I. intros g v -> N. discriminate N.
    - intros s L. unfold I in L.
      rewrite (get_model_again s m p) by (rewrite L; now split).
      split; [exact L|apply emits_only_refl].
    - exact G. }
  unfold I in R. now rewrite R, G.
Qed.

(** What a successful run of the loading code leaves in the globals. *)
Lemma load_model_loaded (st st' : St) (m : Model env) (p : Processor env) :
  load_model env st = (Ok (m, p), st') -> loaded m p (globals st').
Proof.
  unfold load_model, assign_processor, assign_model, logger_info.
  unfold bind, call, write_globals, read_globals, emit, ret.
  destruct (BlipProcessor_from_pretrained env model_name (world st))
    as [[p0|?] w0]; reduce_state; [|discriminate].
  destruct (BlipForConditionalGeneration_from_pretrained env model_name w0)
    as [[m0|?] w1]; reduce_state; [|discriminate].
  match goal with |- context [get_device env ?s] => set (s1 := s) end.
  assert (P1 : _processor (globals (snd (get_device env s1))) = Some p0).
  { apply (respects_get_device env (fun g => _processor g = Some p0) any_event);
      [intros g v G _; exact G | exact Logic.I | intros msg; exact Logic.I
      | reflexivity]. }
  destruct (get_device env s1) as [[d|?] s2]; reduce_state; [|discriminate].
  cbn [snd] in P1.
  destruct (model_to env m0 d (world s2)) as [[m1|?] w2]; reduce_state; [|discriminate].
  destruct (String.eqb d "cuda"); reduce_state.
  - destruct (model_half env m1 w2) as [[h|?] w3]; reduce_state; [|discriminate].
    destruct (model_eval env h w3) as [[[]|?] w4]; reduce_state; [|discriminate].
    intros [= <- <- <-]. split; [reflexivity|exact P1].
  - destruct (model_eval env m1 w2) as [[[]|?] w3]; reduce_state; [|discriminate].
    intros [= <- <- <-]. split; [reflexivity|exact P1].
Qed.

Lemma get_model_loaded (st st' : St) (m : Model env) (p : Processor env) :
  get_model env st = (Ok (m, p), st') -> loaded m p (globals st').
Proof.
  unfold get_model, try_except, bind, read_globals, logger_info, logger_error,
    emit, raise, ret.
  reduce_state.
  destruct (_model (globals st)) as [m0|] eqn:Hm;
    destruct (_processor (globals st)) as [p0|] eqn:Hp; reduce_state;
    try (match goal with
         | |- context [load_model env ?s] =>
             destruct (load_model env s) as [[[m1 p1]|e] s1] eqn:E
         end; reduce_state;
         [intros [= <- <- <-]; exact (load_model_loaded _ _ _ _ E) | discriminate]).
  intros [= <- <- <-]. now split.
Qed.

End Caching.

(** ** The calls of [model.generate] *)

Section Generation.

Variable env : Env.

#[local] Abbreviation St := (St env).

Lemma generate_calls_quiet (st st' : St) :
  emits_only not_a_generate st st' ->
  generate_calls (trace st') = generate_calls (trace st).
Proof.
  intros (new & -> & F). induction F as [|ev new Hev F IH]; [reflexivity|].
  cbn [app generate_calls]. destruct ev as [lvl msg|c]; [exact IH|].
  destruct c; try exact IH. destruct Hev.
Qed.

Lemma quiet_most (ev : Event env) :
  (forall m i kw, ev <> Call (Generate m i kw)) -> not_a_generate ev.
Proof.
  intros H. destruct ev as [lvl msg|c]; [exact Logic.I|].
  destruct c; try exact Logic.I. exfalso. now apply (H m i kw).
Qed.

Lemma get_model_quiet (st : St) :
  generate_calls (trace (snd (get_model env st))) = generate_calls (trace st).
Proof.
  apply generate_calls_quiet.
  apply (loading_get_model env (fun _ => True) not_a_generate); auto using quiet_most.
Qed.

Lemma get_device_quiet (st : St) :
  generate_calls (trace (snd (get_device env st))) = generate_calls (trace st).
Proof.
  apply generate_calls_quiet.
  apply (loading_get_device env (fun _ => True) not_a_generate); auto using quiet_most.
Qed.

(** The answer at the end of a path: no call of [generate], or the one with
    [kw]. *)
Ltac path_end E :=
  reduce_state; cbn [generate_calls]; rewrite E;
  first [ exists []; split; [now rewrite app_nil_r|];
          split; [now left | intros ?; discriminate]
        | eexists [_]; split; [reflexivity|];
          split; [now right | intros ?; reflexivity] ].

Ltac next_call :=
  match goal with
  | |- context [let (_, _) := ?f (world ?s) in _] =>
      destruct (f (world s)) as [[?|?] ?]
  | |- context [let (_, _) := ?f ?w in _] =>
      destruct (f w) as [[?|?] ?]
  end; reduce_state.

Lemma generate_caption_calls (image : Image env) (max_length num_beams : Z) (st : St) :
  let r := generate_caption env image max_length num_beams st in
  exists l,
    generate_calls (trace (snd r)) = (generate_calls (trace st) ++ l)%list
    /\ (l = [] \/ l = [mkKwargs max_length num_beams true None None])
    /\ (forall caption, fst r = Ok caption ->
                        l = [mkKwargs max_length num_beams true None None]).
Proof.
  unfold generate_caption, logger_info, logger_error.
  unfold try_except, bind, call, emit, ret, raise.
  pose proof (get_model_quiet st) as E1.
  destruct (get_model env st) as [[[m p]|e] s1]; reduce_state; cbn [snd] in E1;
    [|path_end E1].
  pose proof (get_device_quiet s1) as E2. rewrite E1 in E2.
  destruct (get_device env s1) as [[d|e] s2]; reduce_state; cbn [snd] in E2;
    [|path_end E2].
  repeat (next_call; try solve [path_end E2]).
Qed.

Lemma generate_detailed_caption_calls (image : Image env) (st : St) :
  let r := generate_detailed_caption env image st in
  exists l,
    generate_calls (trace (snd r)) = (generate_calls (trace st) ++ l)%list
    /\ (l = [] \/ l = [mkKwargs 70 4 true (Some false) (Some 1.2%Q)])
    /\ (forall caption, fst r = Ok caption ->
                        l = [mkKwargs 70 4 true (Some false) (Some 1.2%Q)]).
Proof.
  unfold generate_detailed_caption, detailed_decode, logger_info, logger_error.
  unfold try_except, bind, call, emit, ret, raise.
  pose proof (get_model_quiet st) as E1.
  destruct (get_model env st) as [[[m p]|e] s1]; reduce_state; cbn [snd] in E1;
    [|path_end E1].
  pose proof (get_device_quiet s1) as E2. rewrite E1 in E2.
  destruct (get_device env s1) as [[d|e] s2]; reduce_state; cbn [snd] in E2;
    [|path_end E2].
  do 2 (next_call; try solve [path_end E2]).
  destruct (String.eqb d "cuda"); reduce_state;
    repeat (next_call; try solve [path_end E2]).
Qed.

End Generation.

(** ** Every caption call leaves a mark in the trace *)

Section CaptionTrace.

Variable env : Env.

#[local] Abbreviation St := (St env).

Lemma emits_only_length (Q : Event env -> Prop) (st st' : St) :
  emits_only Q st st' -> (length (trace st) <= length (trace st'))%nat.
Proof.
  intros (new & -> & _). rewrite length_app. lia.
Qed.

Lemma get_model_length (st : St) :
  (length (trace st) <= length (trace (snd (get_model env st))))%nat.
Proof.
  apply (emits_only_length any_event).
  apply (loading_get_model env (fun _ => True) any_event); auto.
  intros ev _. exact Logic.I.
Qed.

Lemma get_device_length (st : St) :
  (length (trace st) <= length (trace (snd (get_device env st))))%nat.
Proof.
  apply (emits_only_length any_event).
  apply (loading_get_device env (fun _ => True) any_event); auto.
  intros ev _. exact Logic.I.
Qed.

Ltac next_call :=
  match goal with
  | |- context [let (_, _) := ?f (world ?s) in _] =>
      destruct (f (world s)) as [[?|?] ?]
  | |- context [let (_, _) := ?f ?w in _] =>
      destruct (f w) as [[?|?] ?]
  end; reduce_state.

Ltac longer := reduce_state; cbn [length]; lia.

Lemma generate_caption_length (image : Image env) (max_length num_beams : Z) (st : St) :
  (length (trace st)
   < length (trace (snd (generate_caption env image max_length num_beams st))))%nat.
Proof.
  unfold generate_caption, logger_info, logger_error.
  unfold try_except, bind, call, emit, ret, raise.
  pose proof (get_model_length st) as L1.
  destruct (get_model env st) as [[[m p]|e] s1]; reduce_state; cbn [snd] in L1;
    [|longer].
  pose proof (get_device_length s1) as L2.
  destruct (get_device env s1) as [[d|e] s2]; reduce_state; cbn [snd] in L2;
    [|longer].
  repeat (next_call; try solve [longer]).
Qed.

Lemma generate_detailed_caption_length (image : Image env) (st : St) :
  (length (trace st)
   < length (trace (snd (generate_detailed_caption env image st))))%nat.
Proof.
  unfold generate_detailed_caption, detailed_decode, logger_info, logger_error.
  unfold try_except, bind, call, emit, ret, raise.
  pose proof (get_model_length st) as L1.
  destruct (get_model env st) as [[[m p]|e] s1]; reduce_state; cbn [snd] in L1;
    [|longer].
  pose proof (get_device_length s1) as L2.
  destruct (get_device env s1) as [[d|e] s2]; reduce_state; cbn [snd] in L2;
    [|longer].
  do 2 (next_call; try solve [longer]).
  destruct (String.eqb d "cuda"); reduce_state;
    repeat (next_call; try solve [longer]).
Qed.

Lemma select_caption_length (caption_type : string) (image : Image env) (st : St) :
  (length (trace st)
   < length (trace (snd (select_caption env caption_type image st))))%nat.
Proof.
  unfold select_caption. destruct (String.eqb caption_type "detailed").
  - apply generate_detailed_caption_length.
  - apply generate_caption_length.
Qed.

End CaptionTrace.

(** ** The claims *)

Section Claims.

Variable env : Env.

#[local] Abbreviation St := (St env).





(** C5, the failing input.  A request one byte above the cap: the
    exception that [request.files] raises is caught by the handler's own
    [except Exception], and the application answers HTTP 500
    ['An unexpected error occurred'] instead of the 413 answer of
    [request_entity_too_large]. *)
Theorem oversize_upload_answer (parts : list (string * FileStorage))
    (fields : list (string * string)) (st : St) :
  fst (post_upload env (mkRequest (MAX_CONTENT_LENGTH + 1) parts fields) st)
  = Ok (error_response "An unexpected error occurred" 500)
  /\ error_response "An unexpected error occurred" 500
     <> request_entity_too_large RequestEntityTooLarge.
Proof.
  split; [|discriminate].
  unfold post_upload, try_except.
  rewrite upload_image_oversize by (cbn [content_length]; lia).
  reflexivity.
Qed.


(** C7. On the first call, with no device cached, [get_device] returns
    ['cuda'] when [torch.cuda.is_available()] is true and ['cpu'] otherwise
    and stores that in [_device]; from then on, whatever operations run and
    however the outside world changes in between, [get_device] returns the
    same value and changes nothing. *)
Theorem get_device_caches (st : St) :
  _device (globals st) = None ->
  let d := if torch_cuda_is_available env (world st) then "cuda" else "cpu" in
  fst (get_device env st) = Ok d
  /\ _device (globals (snd (get_device env st))) = Some d
  /\ forall ops : list (Op env),
       let st' := run ops (snd (get_device env st)) in
       get_device env st' = (Ok d, st').
Proof.
  intros N d. destruct (get_device_first env st N) as [R G]. fold d in R, G.
  assert (C : device_cached d (globals (snd (get_device env st)))).
  { unfold device_cached. now rewrite G. }
  repeat split; [exact R | exact C |].
  intros ops st'. apply get_device_again. now apply device_cached_run.
Qed.


(** C9, amended. When the decoded output starts, case-insensitively, with
    the prompt ['a detailed description of'], [generate_detailed_caption]
    returns what follows those first characters, without its surrounding
    whitespace; otherwise it returns the decoded text as it is.  The prompt
    is removed once. *)
Theorem detailed_caption_cleanup (image : Image env) (st st1 : St)
    (decoded : string) :
  detailed_decode env image st = (Ok decoded, st1) ->
  fst (generate_detailed_caption env image st) = Ok (clean_up decoded)
  /\ (PyStr.startswith (PyStr.lower decoded) text_prompt = true ->
      exists head rest,
        decoded = head ++ rest
        /\ PyStr.lower head = text_prompt
        /\ clean_up decoded = PyStr.strip rest
        /\ trimmed rest (clean_up decoded))
  /\ (PyStr.startswith (PyStr.lower decoded) text_prompt = false ->
      clean_up decoded = decoded).
Proof.
  intros D. repeat split.
  - unfold generate_detailed_caption, try_except, bind. now rewrite D.
  - intros P. destruct (startswith_lower_split text_prompt decoded P) as (head & E & L).
    exists head, (PyStr.slice_from (String.length text_prompt) decoded).
    assert (C : clean_up decoded
                = PyStr.strip (PyStr.slice_from (String.length text_prompt) decoded)).
    { unfold clean_up. fold text_prompt. now rewrite P. }
    repeat split; try assumption.
    + rewrite C. apply strip_trimmed.
    + rewrite C. apply strip_trimmed.
    + rewrite C. apply strip_trimmed.
  - intros P. unfold clean_up. fold text_prompt. now rewrite P.
Qed.


End Claims.


(** ** The claims on concrete requests

    The toy world runs the embedding: each lemma below applies a theorem of
    the previous section to a concrete request, or evaluates the handler where
    a sentence of the specification does not hold. *)

Ltac concrete :=
  repeat match goal with
         | |- reaches_decoding _ _ => unfold reaches_decoding
         | |- _ /\ _ => split
         | |- _ <= _ => vm_compute; discriminate
         | |- _ <> _ => discriminate
         | |- _ = _ => reflexivity
         end.






Lemma get_device_caches_witness :
  fst (get_device Toy.env Toy.start) = Ok "cpu"
  /\ forall ops : list (Op Toy.env),
       let st' := run (ops ++ [OpOutside (env := Toy.env) (fun _ => true)])%list
                    (snd (get_device Toy.env Toy.start)) in
       get_device Toy.env st' = (Ok "cpu", st').
Proof.
  destruct (get_device_caches Toy.env Toy.start eq_refl) as (A & _ & C).
  split; [exact A|]. intros ops. apply C.
Defined.

Lemma toy_convert_yields_mode : convert_yields_mode Toy.env.
Proof.
  intros image converted mode. cbn. now intros [= <-].
Qed.


(** C9 as the specification states it, at a decoded output that repeats the
    prompt: the returned caption still begins with the prompt. *)
Lemma repeated_prompt_survives :
  fst (generate_detailed_caption Toy.env ("RGB", "a detailed description of a cat")
         Toy.start)
  = Ok "a detailed description of a cat"
  /\ PyStr.startswith (PyStr.lower "a detailed description of a cat") text_prompt = true.
Proof.
  split; reflexivity.
Defined.

Lemma detailed_caption_cleanup_witness :
  fst (generate_detailed_caption Toy.env ("RGB", "  a cat on a mat ") Toy.start)
  = Ok "a cat on a mat".
Proof.
  destruct (detailed_caption_cleanup Toy.env ("RGB", "  a cat on a mat ") Toy.start
              (snd (detailed_decode Toy.env ("RGB", "  a cat on a mat ") Toy.start))
              "a detailed description of   a cat on a mat " eq_refl)
    as (A & _ & _).
  exact A.
Defined.



(** ** Further properties of [app.py] *)

Section UploadOutcomes.

Variable env : Env.

#[local] Abbreviation St := (St env).

(** Every run of [upload_image] is one of the seven cases. *)
Lemma upload_image_case (req : Request) (st : St) :
  exists resp st',
    upload_image env req st = (Ok resp, st') /\ upload_case env req st resp st'.
Proof.
  destruct (Z_le_gt_dec (content_length req) MAX_CONTENT_LENGTH) as [H|H].
  2:{ apply Z.gt_lt in H. do 2 eexists. split.
      - now apply upload_image_oversize.
      - now constructor. }
  destruct (multidict_get "image" (files req)) as [file|] eqn:N.
  2:{ do 2 eexists. split; [now apply upload_image_no_part|now constructor]. }
  destruct (string_dec (filename file) "") as [E|E].
  { do 2 eexists. split; [now apply (upload_image_no_name env req file)|].
    now apply (case_no_name env req st file). }
  destruct (allowed_file_total (filename file)) as [[|] A].
  2:{ do 2 eexists. split; [now apply (upload_image_bad_type env req file)|].
      now apply (case_bad_type env req st file). }
  assert (R : reaches_decoding req file) by (repeat split; assumption).
  destruct (read_image env file) as [image|e] eqn:D.
  2:{ do 2 eexists. split; [now apply (upload_image_undecodable env req file e)|].
      now apply (case_undecodable env req st file e). }
  rewrite (upload_image_decoded env req file image st H N E A D).
  unfold caption_response, answer_with, try_except, bind, logger_info, logger_error,
    emit, ret.
  destruct (select_caption env (form_get (form req) "type" "default") image st)
    as [[caption|e] st1] eqn:C.
  - do 2 eexists. split; [reflexivity|].
    now apply (case_captioned env req st file image caption st1).
  - do 2 eexists. split; [reflexivity|].
    now apply (case_caption_failed env req st file image e st1).
Qed.

(** X1. [upload_image] never lets an exception out: it always answers, and
    the answer is the success response or one of six error responses whose
    text is fixed (up to the order of the allowed extensions); no exception
    text reaches the client.  So none of the application's error handlers is
    ever used for [/upload]. *)
Theorem upload_image_always_answers (req : Request) (st : St) :
  exists resp st',
    upload_image env req st = (Ok resp, st')
    /\ post_upload env req st = (Ok resp, st')
    /\ (resp = error_response "An unexpected error occurred" 500
        \/ resp = error_response "No image file provided" 400
        \/ resp = error_response "No file selected" 400
        \/ resp = error_response
                    ("Invalid file type. Allowed types: "
                     ++ PyStr.join ", " (set_iteration env ALLOWED_EXTENSIONS)) 400
        \/ resp = error_response "Invalid or corrupted image file" 400
        \/ resp = error_response "Failed to generate caption. Please try again." 500
        \/ exists caption file,
             multidict_get "image" (files req) = Some file
             /\ resp = success_response caption (filename file)).
Proof.
  destruct (upload_image_case req st) as (resp & st' & U & C).
  exists resp, st'. split; [exact U|]. split.
  - unfold post_upload, try_except. now rewrite U.
  - destruct C as [ | | | | | |file image caption st1 R D S]; auto 7.
    do 6 right. exists caption, file. split; [apply R|reflexivity].
Qed.




End UploadOutcomes.

(** ** Further properties of [allowed_file] *)

Lemma lower_char_dot (c : ascii) :
  Ascii.eqb (PyStr.lower_char c) "." = Ascii.eqb c ".".
Proof.
  destruct c as [[] [] [] [] [] [] [] []]; reflexivity.
Qed.

Lemma lower_char_idempotent (c : ascii) :
  PyStr.lower_char (PyStr.lower_char c) = PyStr.lower_char c.
Proof.
  destruct c as [[] [] [] [] [] [] [] []]; reflexivity.
Qed.

Lemma lower_idempotent (s : string) : PyStr.lower (PyStr.lower s) = PyStr.lower s.
Proof.
  induction s as [|c s IH]; cbn [PyStr.lower]; [reflexivity|].
  now rewrite lower_char_idempotent, IH.
Qed.

Lemma contains_dot_lower (s : string) :
  PyStr.contains "." (PyStr.lower s) = PyStr.contains "." s.
Proof.
  induction s as [|c s IH]; cbn [PyStr.lower PyStr.contains]; [reflexivity|].
  now rewrite lower_char_dot, IH.
Qed.

Lemma rpartition_dot_lower (s : string) :
  PyStr.rpartition "." (PyStr.lower s)
  = match PyStr.rpartition "." s with
    | Some (pre, post) => Some (PyStr.lower pre, PyStr.lower post)
    | None => None
    end.
Proof.
  induction s as [|c s IH]; cbn [PyStr.lower PyStr.rpartition]; [reflexivity|].
  rewrite IH, lower_char_dot.
  destruct (PyStr.rpartition "." s) as [[pre post]|]; [reflexivity|].
  now destruct (Ascii.eqb c ".").
Qed.

Lemma allowed_file_lower (s : string) : allowed_file (PyStr.lower s) = allowed_file s.
Proof.
  unfold allowed_file, PyStr.rsplit1.
  rewrite contains_dot_lower, rpartition_dot_lower.
  destruct (PyStr.contains "." s); [|reflexivity].
  destruct (PyStr.rpartition "." s) as [[pre post]|]; cbn [nth_error].
  - now rewrite lower_idempotent.
  - reflexivity.
Qed.

(** X5. [allowed_file] is case-insensitive in the whole file name: two names
    that lowercase to the same string get the same verdict. *)
Theorem allowed_file_case_insensitive (a b : string) :
  PyStr.lower a = PyStr.lower b -> allowed_file a = allowed_file b.
Proof.
  intros E. now rewrite <- (allowed_file_lower a), <- (allowed_file_lower b), E.
Qed.

(** X6. [allowed_file] looks at the text after the last dot only: whatever
    comes before it, other extensions and the empty stem included, does not
    change the verdict; and a name that ends in a dot is refused. *)
Theorem allowed_file_last_extension_only (stem1 stem2 ext : string) :
  PyStr.contains "." ext = false ->
  allowed_file (stem1 ++ "." ++ ext) = allowed_file (stem2 ++ "." ++ ext)
  /\ allowed_file (stem1 ++ "." ++ ext)
     = Ok (PyStr.mem (PyStr.lower ext) ALLOWED_EXTENSIONS)
  /\ allowed_file (stem1 ++ ".") = Ok false.
Proof.
  intros D.
  assert (V : forall stem e, PyStr.contains "." e = false ->
                allowed_file (stem ++ "." ++ e)
                = Ok (PyStr.mem (PyStr.lower e) ALLOWED_EXTENSIONS)).
  { intros stem e De. unfold allowed_file, PyStr.rsplit1.
    change (stem ++ "." ++ e) with (stem ++ String "." e).
    rewrite contains_app_sep.
    assert (R : PyStr.rpartition "." (stem ++ String "." e) = Some (stem, e))
      by (apply rpartition_Some; now split).
    now rewrite R. }
  split; [|split].
  - now rewrite !V.
  - now apply V.
  - apply (V stem1 EmptyString). reflexivity.
Qed.

(** ** Further properties of [model_loader.py] *)

Section Setup.

Variable env : Env.

#[local] Abbreviation St := (St env).

(** What one call of [get_device] does to the state. *)
Lemma get_device_effect (st : St) :
  exists d st',
    get_device env st = (Ok d, st')
    /\ globals st' = mkGlobals (_model (globals st)) (_processor (globals st)) (Some d)
    /\ world st' = world st
    /\ (trace st' = trace st
        \/ exists msg, trace st' = Log INFO msg :: Call CudaIsAvailable :: trace st).
Proof.
  unfold get_device, bind, read_globals, call, assign_device, write_globals,
    logger_info, emit, ret.
  destruct (_device (globals st)) as [d|] eqn:D; reduce_state.
  - exists d, st. repeat split; auto. destruct st as [[m p dv] w t]. cbn in *. now subst.
  - destruct (torch_cuda_is_available env (world st)); reduce_state;
      do 2 eexists; repeat split; right; now eexists.
Qed.

(** Once the model is loaded, no operation makes a set-up call again. *)
Lemma settled_run (m : Model env) (p : Processor env) (ops : list (Op env)) (st : St) :
  loaded m p (globals st) ->
  loaded m p (globals (run ops st)) /\ emits_only not_a_setup st (run ops st).
Proof.
  assert (D : respects (loaded m p) not_a_setup (get_device env)).
  { apply respects_get_device;
      [intros g v G _; exact G | exact Logic.I | intros msg; exact Logic.I]. }
  assert (G : respects (loaded m p) not_a_setup (get_model env)).
  { intros s L. rewrite (get_model_again env s m p L). split; [exact L|].
    apply emits_only_refl. }
  assert (C : forall image ml nb,
             respects (loaded m p) not_a_setup (generate_caption env image ml nb)).
  { intros image ml nb. unfold generate_caption. repeat respects_step; exact Logic.I. }
  assert (C' : forall image,
             respects (loaded m p) not_a_setup (generate_detailed_caption env image)).
  { intros image. unfold generate_detailed_caption, detailed_decode.
    repeat respects_step; exact Logic.I. }
  assert (U : forall req, respects (loaded m p) not_a_setup (post_upload env req)).
  { intros req.
    unfold post_upload, upload_image, request_files, request_form, caption_response,
      answer_with, select_caption.
    repeat respects_step; solve [exact Logic.I | apply C | apply C']. }
  assert (X : respects (loaded m p) not_a_setup (index env)).
  { unfold index. repeat respects_step; exact Logic.I. }
  assert (Hc : respects (loaded m p) not_a_setup (health_check env)).
  { unfold health_check. repeat respects_step. }
  assert (S : forall op s, loaded m p (globals s) ->
                loaded m p (globals (step op s)) /\ emits_only not_a_setup s (step op s)).
  { intros op s. destruct op; cbn [step].
    - apply D.
    - apply G.
    - apply C.
    - apply C'.
    - apply U.
    - apply X.
    - apply Hc.
    - intros H. split; [exact H|]. exists []. split; [reflexivity|constructor]. }
  revert st. induction ops as [|op ops IH]; intros st H; cbn [run fold_left].
  - split; [exact H|apply emits_only_refl].
  - destruct (S op st H) as [H1 E1]. destruct (IH (step op st) H1) as [H2 E2].
    split; [exact H2|]. now apply emits_only_trans with (step op st).
Qed.

End Setup.

Section Loads.

Variable env : Env.

#[local] Abbreviation St := (St env).

Ltac find_in := cbn [In]; repeat first [ left; reflexivity | right ].

Ltac refute_in H :=
  cbn [In] in H; repeat (destruct H as [H|H]; [discriminate H|]); destruct H.

(** What a successful run of the loading code has done. *)
Lemma load_model_success (s s' : St) (m : Model env) (p : Processor env) :
  load_model env s = (Ok (m, p), s') ->
  exists d mid,
    globals s' = mkGlobals (Some m) (Some p) (Some d)
    /\ trace s' = (Log INFO ("Model loaded successfully on " ++ d)
                   :: Call (ModelEval m) :: mid ++ trace s)%list
    /\ (exists m0, In (Call (ModelTo m0 d)) mid)
    /\ ((exists m1, In (Call (ModelHalf m1)) mid) <-> d = "cuda").
Proof.
  unfold load_model, assign_processor, assign_model, logger_info.
  unfold bind, call, write_globals, read_globals, emit, ret.
  destruct (BlipProcessor_from_pretrained env model_name (world s))
    as [[p0|?] w0]; reduce_state; [|discriminate].
  destruct (BlipForConditionalGeneration_from_pretrained env model_name w0)
    as [[m0|?] w1]; reduce_state; [|discriminate].
  match goal with
  | |- context [get_device env ?s1] =>
      destruct (get_device_effect env s1) as (d & s2 & GD & G2 & W2 & T2); rewrite GD
  end.
  reduce_state. cbn [globals world trace _model _processor _device] in G2, W2, T2.
  destruct (model_to env m0 d (world s2)) as [[m1|?] w2]; reduce_state; [|discriminate].
  destruct (String.eqb d "cuda") eqn:Q; reduce_state.
  - destruct (model_half env m1 w2) as [[h|?] w3]; reduce_state; [|discriminate].
    destruct (model_eval env h w3) as [[[]|?] w4]; reduce_state; [|discriminate].
    intros [= <- <- <-]. reduce_state. rewrite G2. exists d.
    destruct T2 as [T|[msg T]]; rewrite T.
    + eexists [_; _; _; _; _]. split; [reflexivity|]. split; [reflexivity|].
      split; [eexists; find_in|].
      split; [intros _; now apply String.eqb_eq | intros _; eexists; find_in].
    + eexists [_; _; _; _; _; _; _]. split; [reflexivity|]. split; [reflexivity|].
      split; [eexists; find_in|].
      split; [intros _; now apply String.eqb_eq | intros _; eexists; find_in].
  - destruct (model_eval env m1 w2) as [[[]|?] w3]; reduce_state; [|discriminate].
    intros [= <- <- <-]. reduce_state. rewrite G2. exists d.
    apply String.eqb_neq in Q.
    destruct T2 as [T|[msg T]]; rewrite T.
    + eexists [_; _; _]. split; [reflexivity|]. split; [reflexivity|].
      split; [eexists; find_in|].
      split; [intros (m2 & H); refute_in H | intros C; now destruct Q].
    + eexists [_; _; _; _; _]. split; [reflexivity|]. split; [reflexivity|].
      split; [eexists; find_in|].
      split; [intros (m2 & H); refute_in H | intros C; now destruct Q].
Qed.

End Loads.

Section LoadOutcomes.

Variable env : Env.

#[local] Abbreviation St := (St env).

Ltac next_call :=
  match goal with
  | |- context [let (_, _) := ?f (world ?s) in _] =>
      destruct (f (world s)) as [[?|?] ?]
  | |- context [let (_, _) := ?f ?w in _] =>
      destruct (f w) as [[?|?] ?]
  end; reduce_state.

(** Where a failed run of the loading code leaves the globals, when the call
    that failed came after the model was fetched. *)
Lemma load_model_failure (s s' : St) (e : exn) (c : ExtCall env)
    (rest : list (Event env)) :
  load_model env s = (Raise e, s') ->
  trace s' = Call c :: rest ->
  after_fetch c ->
  exists m p, loaded m p (globals s').
Proof.
  unfold load_model, assign_processor, assign_model, logger_info.
  unfold bind, call, write_globals, read_globals, emit, ret.
  destruct (BlipProcessor_from_pretrained env model_name (world s))
    as [[p0|?] w0]; reduce_state.
  2:{ intros [= <- <-]. reduce_state. intros [= <- _] F. destruct F. }
  destruct (BlipForConditionalGeneration_from_pretrained env model_name w0)
    as [[m0|?] w1]; reduce_state.
  2:{ intros [= <- <-]. reduce_state. intros [= <- _] F. destruct F. }
  match goal with
  | |- context [get_device env ?s1] =>
      destruct (get_device_effect env s1) as (d & s2 & GD & G2 & W2 & T2); rewrite GD
  end.
  reduce_state. cbn [globals world trace _model _processor _device] in G2.
  destruct (model_to env m0 d (world s2)) as [[m1|?] w2]; reduce_state.
  2:{ intros [= <- <-]. reduce_state. intros _ _. rewrite G2. now exists m0, p0. }
  destruct (String.eqb d "cuda"); reduce_state.
  - destruct (model_half env m1 w2) as [[h|?] w3]; reduce_state.
    2:{ intros [= <- <-]. reduce_state. intros _ _. rewrite G2. now exists m1, p0. }
    destruct (model_eval env h w3) as [[[]|?] w4]; reduce_state; [discriminate|].
    intros [= <- <-]. reduce_state. intros _ _. rewrite G2. now exists h, p0.
  - destruct (model_eval env m1 w2) as [[[]|?] w3]; reduce_state; [discriminate|].
    intros [= <- <-]. reduce_state. intros _ _. rewrite G2. now exists m1, p0.
Qed.

(** X7. The first successful [get_model]: the returned model is the one that
    was moved to the device that [get_device] cached and then put in
    evaluation mode, the last step before the success record; it was switched
    to half precision exactly when that device is ['cuda']. *)
Theorem get_model_first_load (st st' : St) (m : Model env) (p : Processor env) :
  _model (globals st) = None \/ _processor (globals st) = None ->
  get_model env st = (Ok (m, p), st') ->
  exists d mid,
    globals st' = mkGlobals (Some m) (Some p) (Some d)
    /\ trace st' = (Log INFO ("Model loaded successfully on " ++ d)
                    :: Call (ModelEval m) :: mid ++ trace st)%list
    /\ (exists m0, In (Call (ModelTo m0 d)) mid)
    /\ ((exists m1, In (Call (ModelHalf m1)) mid) <-> d = "cuda").
Proof.
  intros N G.
  assert (L : exists s0, trace s0 = Log INFO
                "Loading BLIP model... This may take a few minutes on first run."
                :: trace st
              /\ load_model env s0 = (Ok (m, p), st')).
  { revert G. unfold get_model, try_except, bind, read_globals, logger_info,
      logger_error, emit, raise, ret. reduce_state.
    destruct (_model (globals st)) as [m0|] eqn:Hm;
      destruct (_processor (globals st)) as [p0|] eqn:Hp; reduce_state;
      try (match goal with
           | |- context [load_model env ?s] =>
               destruct (load_model env s) as [[[m1 p1]|e] s1] eqn:E
           end; reduce_state; [|discriminate];
           intros [= <- <- <-]; eexists; split; [|exact E]; reflexivity).
    destruct N; discriminate. }
  destruct L as (s0 & T0 & L).
  destruct (load_model_success env s0 st' m p L) as (d & mid & G' & T & (m0 & I0) & H).
  exists d, (mid ++ [Log INFO
                "Loading BLIP model... This may take a few minutes on first run."])%list.
  split; [exact G'|]. split; [|split].
  - rewrite T, T0. cbn [app]. do 2 f_equal. now rewrite <- app_assoc.
  - exists m0. apply in_or_app. now left.
  - rewrite <- H. split; intros (m1 & I1); exists m1.
    + apply in_app_or in I1. destruct I1 as [I1|I1]; [exact I1|].
      destruct I1 as [I1|[]]. discriminate I1.
    + apply in_or_app. now left.
Qed.



End LoadOutcomes.

Section Retries.

Variable env : Env.

#[local] Abbreviation St := (St env).

(** A failed fetch leaves [_model] as it was. *)
Lemma load_model_fetch_failure (s s' : St) (e : exn) (c : ExtCall env)
    (rest : list (Event env)) :
  load_model env s = (Raise e, s') ->
  trace s' = Call c :: rest ->
  is_fetch c ->
  _model (globals s') = _model (globals s).
Proof.
  unfold load_model, assign_processor, assign_model, logger_info.
  unfold bind, call, write_globals, read_globals, emit, ret.
  destruct (BlipProcessor_from_pretrained env model_name (world s))
    as [[p0|?] w0]; reduce_state.
  2:{ now intros [= <- <-]. }
  destruct (BlipForConditionalGeneration_from_pretrained env model_name w0)
    as [[m0|?] w1]; reduce_state.
  2:{ now intros [= <- <-]. }
  match goal with
  | |- context [get_device env ?s1] =>
      destruct (get_device_effect env s1) as (d & s2 & GD & _); rewrite GD
  end.
  reduce_state.
  destruct (model_to env m0 d (world s2)) as [[m1|?] w2]; reduce_state.
  2:{ intros [= <- <-]. reduce_state. intros [= <- _] F. destruct F. }
  destruct (String.eqb d "cuda"); reduce_state.
  - destruct (model_half env m1 w2) as [[h|?] w3]; reduce_state.
    2:{ intros [= <- <-]. reduce_state. intros [= <- _] F. destruct F. }
    destruct (model_eval env h w3) as [[[]|?] w4]; reduce_state; [discriminate|].
    intros [= <- <-]. reduce_state. intros [= <- _] F. destruct F.
  - destruct (model_eval env m1 w2) as [[[]|?] w3]; reduce_state; [discriminate|].
    intros [= <- <-]. reduce_state. intros [= <- _] F. destruct F.
Qed.

(** A [get_model] without a cached model starts by logging and fetching the
    processor. *)
Lemma get_model_attempt (s : St) :
  _model (globals s) = None ->
  exists new,
    trace (snd (get_model env s))
    = (new ++ Call (ProcessorFromPretrained model_name)
           :: Log INFO "Loading BLIP model... This may take a few minutes on first run."
           :: trace s)%list.
Proof.
  intros N.
  assert (D : respects (fun _ => True) any_event (get_device env)).
  { apply (loading_get_device env (fun _ => True) any_event); auto.
    intros ev _. exact Logic.I. }
  assert (K : forall (k : Processor env -> M env (Model env * Processor env))
                     (h : exn -> M env (Model env * Processor env)) (s0 : St),
             (forall a, respects (fun _ => True) any_event (k a)) ->
             (forall e, respects (fun _ => True) any_event (h e)) ->
             exists new,
               trace (snd (try_except
                             (bind (call env (ProcessorFromPretrained model_name)
                                      (BlipProcessor_from_pretrained env model_name)) k)
                             h s0))
               = (new ++ Call (ProcessorFromPretrained model_name) :: trace s0)%list).
  { intros k h s0 Hk Hh. unfold try_except, bind, call.
    destruct (BlipProcessor_from_pretrained env model_name (world s0)) as [[a|e] w];
      reduce_state.
    - destruct (Hk a (mkSt (globals s0) w
                        (Call (ProcessorFromPretrained model_name) :: trace s0)) Logic.I)
        as [_ (n1 & E1 & _)].
      destruct (k a _) as [[r|e] s1]; cbn [snd] in E1; reduce_state.
      + exists n1. exact E1.
      + destruct (Hh e s1 Logic.I) as [_ (n2 & E2 & _)].
        exists (n2 ++ n1)%list. rewrite E2, E1. cbn [trace]. now rewrite app_assoc.
    - destruct (Hh e (mkSt (globals s0) w
                        (Call (ProcessorFromPretrained model_name) :: trace s0)) Logic.I)
        as [_ (n2 & E2 & _)].
      exists n2. exact E2. }
  unfold get_model. unfold bind at 1. unfold read_globals. reduce_state. rewrite N.
  unfold bind at 1. unfold logger_info at 1. unfold emit. reduce_state.
  unfold load_model.
  match goal with
  | |- context [try_except (bind _ ?k) ?h ?s0] => destruct (K k h s0) as (new & E)
  end.
  - intros a. repeat respects_step;
      solve [exact Logic.I | intros g; exact (fun x => x) | intros g; exact (fun _ => Logic.I)].
  - intros e. repeat respects_step; exact Logic.I.
  - exists new. exact E.
Qed.

(** X10. A [get_model] that fails while fetching the processor or the model
    leaves [_model] unset, so the next [get_model] starts over: it logs the
    loading message and fetches the processor again, also when the processor
    had been fetched already. *)
Theorem failed_fetch_is_retried (st st' : St) (e : exn) (msg : string)
    (c : ExtCall env) (rest : list (Event env)) :
  _model (globals st) = None ->
  get_model env st = (Raise e, st') ->
  trace st' = Log ERROR msg :: Call c :: rest ->
  is_fetch c ->
  _model (globals st') = None
  /\ exists new,
       trace (snd (get_model env st'))
       = (new ++ Call (ProcessorFromPretrained model_name)
              :: Log INFO "Loading BLIP model... This may take a few minutes on first run."
              :: trace st')%list.
Proof.
  intros N G T F.
  assert (L : exists s0 s1, load_model env s0 = (Raise e, s1)
                            /\ globals s0 = globals st
                            /\ globals st' = globals s1
                            /\ exists msg', trace st' = Log ERROR msg' :: trace s1).
  { revert G. unfold get_model, try_except, bind, read_globals, logger_info,
      logger_error, emit, raise, ret. reduce_state. rewrite N.
    match goal with
    | |- context [load_model env ?s] =>
        destruct (load_model env s) as [[[m1 p1]|e1] s1] eqn:E
    end; reduce_state; [discriminate|].
    intros [= <- <-]. do 2 eexists. split; [exact E|].
    repeat split. eexists; reflexivity. }
  destruct L as (s0 & s1 & L & G0 & G1 & msg' & T').
  rewrite T in T'. injection T' as _ T'.
  pose proof (load_model_fetch_failure s0 s1 e c rest L (eq_sym T') F) as Hm.
  assert (N' : _model (globals st') = None) by now rewrite G1, Hm, G0.
  split; [exact N'|]. now apply get_model_attempt.
Qed.

End Retries.

(** ** The further properties on concrete requests *)



Lemma allowed_file_case_insensitive_witness :
  allowed_file "Holiday.JPG" = allowed_file "holiday.jpg".
Proof.
  apply allowed_file_case_insensitive. reflexivity.
Defined.

Lemma allowed_file_last_extension_only_witness :
  allowed_file "shell.php.png" = allowed_file ".png"
  /\ allowed_file "shell.php." = Ok false.
Proof.
  destruct (allowed_file_last_extension_only "shell.php" "" "png" eq_refl)
    as (A & _ & B).
  split; [exact A|exact B].
Defined.

Lemma get_model_first_load_witness :
  exists d mid,
    globals (snd (get_model Toy.env Toy.start))
    = mkGlobals (env := Toy.env) (Some 2%nat) (Some 1%nat) (Some d)
    /\ trace (snd (get_model Toy.env Toy.start))
       = (Log INFO ("Model loaded successfully on " ++ d)
          :: Call (ModelEval (env := Toy.env) 2%nat) :: mid ++ trace Toy.start)%list
    /\ (exists m0, In (Call (ModelTo (env := Toy.env) m0 d)) mid)
    /\ ((exists m1, In (Call (ModelHalf (env := Toy.env) m1)) mid) <-> d = "cuda").
Proof.
  apply (get_model_first_load Toy.env Toy.start (snd (get_model Toy.env Toy.start))
           2%nat 1%nat); [now left | reflexivity].
Defined.



Lemma failed_fetch_is_retried_witness :
  let st' := snd (get_model ToyFaults.offline ToyFaults.offline_start) in
  _processor (globals st') = Some 1%nat
  /\ _model (globals st') = None
  /\ exists new,
       trace (snd (get_model ToyFaults.offline st'))
       = (new ++ Call (ProcessorFromPretrained model_name)
              :: Log INFO "Loading BLIP model... This may take a few minutes on first run."
              :: trace st')%list.
Proof.
  intros st'. split; [reflexivity|].
  apply (failed_fetch_is_retried ToyFaults.offline ToyFaults.offline_start st'
           (PyException "OSError" "cannot reach the model hub")
           "Error loading model: cannot reach the model hub"
           (ModelFromPretrained (env := ToyFaults.offline) model_name)
           (tl (tl (trace st'))));
    [reflexivity | reflexivity | reflexivity | exact Logic.I].
Defined.
